(** * mejora_codigo: the test / improve / swap / revert pipeline

    A shallow embedding of [mejora_codigo.py].  The script talks to the
    outside world only through a handful of library calls
    ([subprocess.run], [openai.Completion.create], [os.makedirs], [open],
    [shutil.move], [os.walk], [logging]); these are modelled by an
    environment of oracles and a small file-system model, and the Python
    functions are transcribed one by one on top of them in a state monad
    with exceptions and process exit.

    What the model fixes:
    - a text is its UTF-8 bytes; a file holds the text written to it;
    - the disk is a finite map from the paths as written to files and
      directories; [os.makedirs], [open] and [shutil.move] act on it as
      on a POSIX system, [os.makedirs('')] included, which raises;
    - pytest, pylint and flake8 report and do not write to that disk;
    - the environment may refuse any file operation, as a whole;
    - the completion service may answer anything or fail, round by round;
    - the differ is a library outside the sources and is modelled from
      its description. *)

From Stdlib Require Import String Ascii ZArith List Bool Lia QArith_base.
From stdpp Require Import base gmap strings list fin_maps pretty.

Local Open Scope string_scope.
Local Open Scope Z_scope.

(** ** Python text

    A Python [str] is modelled by its UTF-8 encoding, one [ascii] per
    byte, so that file contents can be compared byte for byte. *)

Module PyStr.

(** The UTF-8 encodings of the 29 code points [c] with [c.isspace()]:
    U+0009..U+000D, U+001C..U+0020, U+0085, U+00A0, U+1680,
    U+2000..U+200A, U+2028, U+2029, U+202F, U+205F, U+3000. *)
Definition whitespace : list (list N) :=
  [ [9]; [10]; [11]; [12]; [13]; [28]; [29]; [30]; [31]; [32];
    [194; 133]; [194; 160]; [225; 154; 128];
    [226; 128; 128]; [226; 128; 129]; [226; 128; 130]; [226; 128; 131];
    [226; 128; 132]; [226; 128; 133]; [226; 128; 134]; [226; 128; 135];
    [226; 128; 136]; [226; 128; 137]; [226; 128; 138];
    [226; 128; 168]; [226; 128; 169]; [226; 128; 175];
    [226; 129; 159]; [227; 128; 128] ]%N.

Fixpoint starts_with (enc : list N) (s : string) : bool :=
  match enc, s with
  | [], _ => true
  | b :: enc', String c s' => (N_of_ascii c =? b)%N && starts_with enc' s'
  | _ :: _, EmptyString => false
  end.

(** Number of bytes of the whitespace code point at the head of [s],
    [0] when [s] does not start with one. *)
Definition ws_len (s : string) : nat :=
  match List.find (fun enc => starts_with enc s) whitespace with
  | Some enc => length enc
  | None => 0%nat
  end.

(** [lstrip_aux skip s]: drop [skip] more bytes of the code point being
    removed, then go on removing leading whitespace. *)
Fixpoint lstrip_aux (skip : nat) (s : string) : string :=
  match s with
  | EmptyString => EmptyString
  | String _ r =>
      match skip with
      | S k => lstrip_aux k r
      | O => match ws_len s with
             | O => s
             | S k => lstrip_aux k r
             end
      end
  end.

Definition lstrip (s : string) : string := lstrip_aux 0 s.

Definition all_space (s : string) : bool :=
  if decide (lstrip s = EmptyString) then true else false.

Fixpoint rstrip (s : string) : string :=
  match s with
  | EmptyString => EmptyString
  | String c r => if all_space s then EmptyString else String c (rstrip r)
  end.

(** [str.strip()] with no argument. *)
Definition strip (s : string) : string := rstrip (lstrip s).

(** [repr] of a list of strings, as an f-string prints it; exact for
    strings without quotes, backslashes or non-printable characters,
    which is all the program ever formats. *)
Definition repr_str (s : string) : string := "'" +:+ s +:+ "'".

Fixpoint repr_items (l : list string) : string :=
  match l with
  | [] => ""
  | [x] => repr_str x
  | x :: l' => repr_str x +:+ ", " +:+ repr_items l'
  end.

Definition repr_list (l : list string) : string := "[" +:+ repr_items l +:+ "]".

End PyStr.

(** ** Paths ([posixpath]) *)

Module PosixPath.

Definition sep : ascii := "/"%char.

Fixpoint has_sep (p : string) : bool :=
  match p with
  | EmptyString => false
  | String c r => if decide (c = sep) then true else has_sep r
  end.

(** [p[:p.rfind('/') + 1]] *)
Fixpoint head_part (p : string) : string :=
  match p with
  | EmptyString => EmptyString
  | String c r => if has_sep p then String c (head_part r) else EmptyString
  end.

(** [p[p.rfind('/') + 1:]] *)
Fixpoint basename (p : string) : string :=
  match p with
  | EmptyString => EmptyString
  | String c r => if has_sep p then basename r else p
  end.

Fixpoint all_sep (p : string) : bool :=
  match p with
  | EmptyString => true
  | String c r => if decide (c = sep) then all_sep r else false
  end.

(** [head.rstrip('/')] *)
Fixpoint rstrip_sep (p : string) : string :=
  match p with
  | EmptyString => EmptyString
  | String c r => if all_sep p then EmptyString else String c (rstrip_sep r)
  end.

(** [os.path.dirname] *)
Definition dirname (p : string) : string :=
  let head := head_part p in
  if decide (head = EmptyString) then head
  else if all_sep head then head
  else rstrip_sep head.

Fixpoint ends_with_sep (p : string) : bool :=
  match p with
  | EmptyString => false
  | String c EmptyString => if decide (c = sep) then true else false
  | String _ r => ends_with_sep r
  end.

(** [os.path.join] of two components *)
Definition join (a b : string) : string :=
  match b with
  | String c _ =>
      if decide (c = sep) then b
      else if decide (a = EmptyString) then b
      else if ends_with_sep a then a +:+ b
      else a +:+ "/" +:+ b
  | EmptyString =>
      if decide (a = EmptyString) then b
      else if ends_with_sep a then a
      else a +:+ "/"
  end.

(** The directories [os.makedirs p] has to find or create, outermost
    first: every prefix of [p] that stops in front of a separator, and
    [p] itself. *)
Fixpoint chain_from (pre rest : string) : list string :=
  match rest with
  | EmptyString => [pre]
  | String c r =>
      if decide (c = sep)
      then (if decide (pre = EmptyString) then [] else [pre])
             ++ chain_from (pre +:+ "/") r
      else chain_from (pre +:+ String c EmptyString) r
  end.

Definition dir_chain (p : string) : list string := chain_from EmptyString p.

End PosixPath.

(** ** The file system

    What the script can see of the disk: a finite map from paths, taken
    as written, to a regular file with its content or a directory.  The
    working directory is the empty path and always exists.  The program
    only uses fixed relative paths without [.], [..] or doubled
    separators, so paths are not normalised. *)

Inductive Node : Type :=
  | File (contenido : string)
  | Dir.

Abbreviation FS := (gmap string Node).

(** The outcome of a library call: a value, or a Python exception (an
    instance of [Exception]) with its message. *)
Inductive Exc (A : Type) : Type :=
  | Ok (a : A)
  | Raise (e : string).
Arguments Ok {A} a.
Arguments Raise {A} e.

Module Os.

Definition is_file (m : FS) (p : string) : bool :=
  match m !! p with Some (File _) => true | _ => false end.

Definition is_dir (m : FS) (p : string) : bool :=
  match m !! p with Some Dir => true | _ => false end.

(** [open(ruta, 'r').read()] *)
Definition read_text (ruta : string) (m : FS) : Exc string :=
  match m !! ruta with
  | Some (File c) => Ok c
  | Some Dir => Raise "[Errno 21] Is a directory"
  | None => Raise "[Errno 2] No such file or directory"
  end.

(** [os.makedirs(name, exist_ok=True)].  The empty name is refused:
    [mkdir('')] fails with ENOENT and [exist_ok] only forgives an
    existing directory.  A regular file anywhere on the chain is refused
    as well. *)
Definition makedirs (name : string) (m : FS) : Exc FS :=
  if decide (name = "") then Raise "[Errno 2] No such file or directory: ''"
  else if existsb (is_file m) (PosixPath.dir_chain name)
  then Raise "[Errno 17] File exists"
  else Ok (foldr (λ d acc, <[d := Dir]> acc) m (PosixPath.dir_chain name)).

(** The directory a new entry [p] goes into must exist. *)
Definition parent_ok (m : FS) (p : string) : bool :=
  if decide (PosixPath.dirname p = "") then true
  else is_dir m (PosixPath.dirname p).

(** [with open(ruta, 'w') as file: file.write(contenido)] *)
Definition write_text (ruta contenido : string) (m : FS) : Exc FS :=
  if decide (ruta = "") then Raise "[Errno 2] No such file or directory: ''"
  else if is_dir m ruta then Raise "[Errno 21] Is a directory"
  else if parent_ok m ruta then Ok (<[ruta := File contenido]> m)
  else Raise "[Errno 2] No such file or directory".

(** [shutil.move(src, dst)] of a regular file: into [dst] when that is a
    directory (refused when the name is taken there), over [dst]
    otherwise.  A directory as source cannot replace a regular file;
    moving a directory anywhere else is outside this model and the
    program never does it (it only moves the staged file over the
    source file it has read). *)
Definition move (src dst : string) (m : FS) : Exc FS :=
  match m !! src with
  | None => Raise "[Errno 2] No such file or directory"
  | Some Dir => Raise "[Errno 20] Not a directory"
  | Some (File c) =>
      if is_dir m dst then
        let real_dst := PosixPath.join dst (PosixPath.basename src) in
        match m !! real_dst with
        | Some _ => Raise "Destination path already exists"
        | None => Ok (<[real_dst := File c]> (delete src m))
        end
      else if parent_ok m dst then Ok (<[dst := File c]> (delete src m))
      else Raise "[Errno 2] No such file or directory"
  end.

End Os.

(** ** The environment

    Everything the run depends on and does not decide itself. *)

(** [subprocess.CompletedProcess] *)
Record CompletedProcess : Type := {
  returncode : Z;
  stdout : string;
  stderr : string;
}.

(** The keyword arguments of [openai.Completion.create]. *)
Record CompletionRequest : Type := {
  engine : string;
  prompt : string;
  max_tokens : Z;
  n : Z;
  stop : option string;
  temperature : Q;
}.

Inductive IoOp : Type :=
  | OpRead (ruta : string)
  | OpMakedirs (ruta : string)
  | OpWrite (ruta : string)
  | OpMove (src dst : string).

Record Env : Type := {
  (** [subprocess.run(comando, capture_output=True, text=True)] in the
      given file system; the child processes (pytest, pylint, flake8)
      are observers: they report and leave the modelled files alone. *)
  subprocess_run : list string → FS → Exc CompletedProcess;
  (** The reply to the [i]-th round-trip (counted from 0) carrying the
      given request: the [text] of each of [response.choices], or the
      exception raised (network, quota, missing key, ...). *)
  completion_create : nat → CompletionRequest → Exc (list string);
  (** A refusal of a file operation for reasons the file-system model
      does not see (permissions, read-only or full disk). The operation
      is refused as a whole. *)
  io_error : IoOp → option string;
  (** What [os.walk] yields, in the order of the operating system, and
      the exception that ends the walk if there is one. *)
  os_walk : string → FS → list (string * list string * list string) * option string;
}.

(** ** The process state and the monad of the script *)

Inductive Level : Type := INFO | WARNING | ERROR.

(** The first component of a diff tuple: [-1], [1], [0] in the library. *)
Inductive DiffOp : Type := DIFF_DELETE | DIFF_INSERT | DIFF_EQUAL.

Global Instance DiffOp_eq_dec : EqDecision DiffOp.
Proof. solve_decision. Defined.

Abbreviation DiffEntry := (DiffOp * string)%type.

(** What is handed to [logging]: a string, or a diff tuple. *)
Inductive Msg : Type :=
  | Txt (s : string)
  | DiffObj (d : DiffEntry).

(** A line of [mejora_codigo.log], without its timestamp. *)
Record LogRecord : Type := { level : Level; msg : Msg }.

Global Instance Level_eq_dec : EqDecision Level.
Proof. solve_decision. Defined.

Global Instance Msg_eq_dec : EqDecision Msg.
Proof. solve_decision. Defined.

Global Instance LogRecord_eq_dec : EqDecision LogRecord.
Proof. solve_decision. Defined.

(** The calls that left the process, in order. *)
Inductive Event : Type :=
  | EvRun (comando : list string)
  | EvRequest (i : nat) (req : CompletionRequest)
  | EvRead (ruta : string)
  | EvMakedirs (ruta : string)
  | EvWrite (ruta contenido : string)
  | EvMove (src dst : string)
  | EvWalk (directorio : string).

Record World : Type := {
  fs : FS;
  log : list LogRecord;
  trace : list Event;
}.

Definition set_fs (m : FS) (w : World) : World :=
  {| fs := m; log := log w; trace := trace w |}.

Definition record_event (ev : Event) (w : World) : World :=
  {| fs := fs w; log := log w; trace := trace w ++ [ev] |}.

Definition add_log (r : LogRecord) (w : World) : World :=
  {| fs := fs w; log := log w ++ [r]; trace := trace w |}.

(** A computation ends normally, with an exception travelling upwards,
    or with [SystemExit] (which [except Exception] does not catch). *)
Inductive Result (A : Type) : Type :=
  | Done (a : A) (w : World)
  | Raised (e : string) (w : World)
  | Exit (code : Z) (w : World).
Arguments Done {A} a w.
Arguments Raised {A} e w.
Arguments Exit {A} code w.

Definition M (A : Type) : Type := World → Result A.

Definition ret {A} (a : A) : M A := λ w, Done a w.

Definition bind {A B} (c : M A) (f : A → M B) : M B := λ w,
  match c w with
  | Done a w' => f a w'
  | Raised e w' => Raised e w'
  | Exit code w' => Exit code w'
  end.

Declare Scope script_scope.
Delimit Scope script_scope with script.
Bind Scope script_scope with M.

Notation "x ← y ; z" := (bind y (λ x, z))
  (at level 20, y at level 100, z at level 200, only parsing) : script_scope.
Notation "' x ← y ; z" := (bind y (λ x, z))
  (at level 20, x pattern, y at level 100, z at level 200, only parsing) : script_scope.
Notation "x ;; z" := (bind x (λ _, z))
  (at level 100, z at level 200, only parsing, right associativity) : script_scope.

Local Open Scope script_scope.

(** [try: body  except Exception as e: handler] *)
Definition try_except {A} (body : M A) (handler : string → M A) : M A := λ w,
  match body w with
  | Raised e w' => handler e w'
  | r => r
  end.

Definition raise {A} (e : string) : M A := λ w, Raised e w.

(** The builtin [exit(code)] *)
Definition exit {A} (code : Z) : M A := λ w, Exit code w.

Definition of_exc {A} (x : Exc A) : M A := λ w,
  match x with Ok a => Done a w | Raise e => Raised e w end.

Fixpoint for_each {A} (l : list A) (body : A → M unit) : M unit :=
  match l with
  | [] => ret tt
  | x :: l' => body x;; for_each l' body
  end.

(** The exit status of the process and the world it leaves behind. An
    uncaught exception ends the interpreter with status 1. *)
Definition exit_status {A} (r : Result A) : Z :=
  match r with Done _ _ => 0 | Raised _ _ => 1 | Exit code _ => code end.

Definition final_world {A} (r : Result A) : World :=
  match r with Done _ w => w | Raised _ w => w | Exit _ w => w end.

Definition nl : string := String "010"%char EmptyString.

(** ** The differ *)

Module DiffMatchPatch.

(** Modelled from the spec: the [diff_match_patch] package, whose
    [diff_main] and [diff_cleanupSemantic] the script calls, is not among
    the sources.  The spec describes it as "a standard
    longest-common-subsequence-style semantic diff, post-processed with a
    semantic-cleanup pass that merges trivial/noisy boundary edits into
    more human-readable chunks"; that is what is defined here. *)

(** Number of characters an edit script keeps. *)
Definition kept {A} (sc : list (DiffOp * A)) : nat :=
  length (filter (λ d, d.1 = DIFF_EQUAL) sc).

(** An edit script, character by character, that keeps a longest common
    subsequence of the two texts. *)
Fixpoint lcs_script (xs ys : list ascii) : list (DiffOp * ascii) :=
  match xs with
  | [] => map (pair DIFF_INSERT) ys
  | x :: xs' =>
      (fix against (ys : list ascii) : list (DiffOp * ascii) :=
         match ys with
         | [] => map (pair DIFF_DELETE) (x :: xs')
         | y :: ys' =>
             if decide (x = y) then (DIFF_EQUAL, x) :: lcs_script xs' ys'
             else
               let borrar := (DIFF_DELETE, x) :: lcs_script xs' (y :: ys') in
               let insertar := (DIFF_INSERT, y) :: against ys' in
               if (kept borrar <? kept insertar)%nat then insertar else borrar
         end) ys
  end.

(** Neighbouring characters under the same operation form one entry. *)
Fixpoint chunks (sc : list (DiffOp * ascii)) : list DiffEntry :=
  match sc with
  | [] => []
  | (op, c) :: sc' =>
      match chunks sc' with
      | (op', t) :: ds =>
          if decide (op = op') then (op, String c t) :: ds
          else (op, String c EmptyString) :: (op', t) :: ds
      | [] => [(op, String c EmptyString)]
      end
  end.

Definition diff_main (text1 text2 : string) : list DiffEntry :=
  chunks (lcs_script (list_ascii_of_string text1) (list_ascii_of_string text2)).

(** The sizes of the deletions and of the insertions in front of the
    next equality. *)
Fixpoint edits_ahead (ds : list DiffEntry) : nat * nat :=
  match ds with
  | (DIFF_DELETE, t) :: ds' =>
      let '(d, i) := edits_ahead ds' in (String.length t + d, i)%nat
  | (DIFF_INSERT, t) :: ds' =>
      let '(d, i) := edits_ahead ds' in (d, String.length t + i)%nat
  | _ => (0, 0)%nat
  end.

(** An equality no longer than the edits on both of its sides is noise:
    it becomes a deletion followed by an insertion of the same text.
    [del] and [ins] are the sizes of the edits since the last equality
    that was kept. *)
Fixpoint absorb_equalities (del ins : nat) (ds : list DiffEntry) : list DiffEntry :=
  match ds with
  | [] => []
  | (DIFF_DELETE, t) :: ds' =>
      (DIFF_DELETE, t) :: absorb_equalities (del + String.length t) ins ds'
  | (DIFF_INSERT, t) :: ds' =>
      (DIFF_INSERT, t) :: absorb_equalities del (ins + String.length t) ds'
  | (DIFF_EQUAL, t) :: ds' =>
      let '(d2, i2) := edits_ahead ds' in
      if ((String.length t <=? Nat.max del ins)
          && (String.length t <=? Nat.max d2 i2))%nat
      then (DIFF_DELETE, t) :: (DIFF_INSERT, t)
             :: absorb_equalities (del + String.length t) (ins + String.length t) ds'
      else (DIFF_EQUAL, t) :: absorb_equalities 0 0 ds'
  end.

Definition flush (del ins : string) : list DiffEntry :=
  (if decide (del = "") then [] else [(DIFF_DELETE, del)])
    ++ (if decide (ins = "") then [] else [(DIFF_INSERT, ins)]).

Definition push_equal (t : string) (ds : list DiffEntry) : list DiffEntry :=
  match ds with
  | (DIFF_EQUAL, t') :: ds' => (DIFF_EQUAL, t +:+ t') :: ds'
  | _ => if decide (t = "") then ds else (DIFF_EQUAL, t) :: ds
  end.

(** Between two equalities all deletions are merged into one entry and
    all insertions into the next; neighbouring equalities are joined. *)
Fixpoint merge_edits (del ins : string) (ds : list DiffEntry) : list DiffEntry :=
  match ds with
  | [] => flush del ins
  | (DIFF_DELETE, t) :: ds' => merge_edits (del +:+ t) ins ds'
  | (DIFF_INSERT, t) :: ds' => merge_edits del (ins +:+ t) ds'
  | (DIFF_EQUAL, t) :: ds' => flush del ins ++ push_equal t (merge_edits "" "" ds')
  end.

(** The library rewrites the list it is given; here the rewritten list
    is the result. *)
Definition diff_cleanupSemantic (diffs : list DiffEntry) : list DiffEntry :=
  merge_edits "" "" (absorb_equalities 0 0 diffs).

(** The text an edit script stands for once the entries under [drop]
    are left out. *)
Definition script_text (drop : DiffOp) (sc : list (DiffOp * ascii)) : string :=
  foldr (λ d acc, if decide (d.1 = drop) then acc else String d.2 acc) "" sc.

(** The two texts a diff stands for. *)
Definition text_of (drop : DiffOp) (diffs : list DiffEntry) : string :=
  foldr (λ d acc, if decide (d.1 = drop) then acc else d.2 +:+ acc) "" diffs.

Definition original_text (diffs : list DiffEntry) : string := text_of DIFF_INSERT diffs.
Definition improved_text (diffs : list DiffEntry) : string := text_of DIFF_DELETE diffs.

End DiffMatchPatch.

(** ** The script *)

Section Script.

Variable E : Env.

(** *** Library calls *)

Definition logging_info (m : Msg) : M unit := λ w,
  Done tt (add_log {| level := INFO; msg := m |} w).

Definition logging_warning (m : Msg) : M unit := λ w,
  Done tt (add_log {| level := WARNING; msg := m |} w).

Definition logging_error (m : Msg) : M unit := λ w,
  Done tt (add_log {| level := ERROR; msg := m |} w).

Definition py_subprocess_run (comando : list string) : M CompletedProcess := λ w,
  of_exc (subprocess_run E comando (fs w)) (record_event (EvRun comando) w).

Definition openai_Completion_create (i : nat) (req : CompletionRequest)
  : M (list string) := λ w,
  of_exc (completion_create E i req) (record_event (EvRequest i req) w).

(** [choices[0]] *)
Definition first_choice (choices : list string) : M string :=
  match choices with
  | c :: _ => ret c
  | [] => raise "list index out of range"
  end.

Definition guarded {A} (op : IoOp) (x : Exc A) : Exc A :=
  match io_error E op with
  | Some e => Raise e
  | None => x
  end.

Definition py_open_read (ruta : string) : M string := λ w,
  of_exc (guarded (OpRead ruta) (Os.read_text ruta (fs w)))
         (record_event (EvRead ruta) w).

Definition update_fs (ev : Event) (x : World → Exc FS) : M unit := λ w,
  match x w with
  | Ok m => Done tt (set_fs m (record_event ev w))
  | Raise e => Raised e (record_event ev w)
  end.

Definition os_makedirs (name : string) : M unit :=
  update_fs (EvMakedirs name)
    (λ w, guarded (OpMakedirs name) (Os.makedirs name (fs w))).

Definition py_open_write (ruta contenido : string) : M unit :=
  update_fs (EvWrite ruta contenido)
    (λ w, guarded (OpWrite ruta) (Os.write_text ruta contenido (fs w))).

Definition shutil_move (src dst : string) : M unit :=
  update_fs (EvMove src dst)
    (λ w, guarded (OpMove src dst) (Os.move src dst (fs w))).

Definition py_os_walk (directorio : string)
  : M (list (string * list string * list string) * option string) := λ w,
  Done (os_walk E directorio (fs w)) (record_event (EvWalk directorio) w).

(** *** The functions of [mejora_codigo.py] *)

Definition ejecutar_comando (comando : list string) : M (option CompletedProcess) :=
  try_except
    (resultado ← py_subprocess_run comando;
     logging_info (Txt (stdout resultado));;
     ret (Some resultado))
    (λ e,
     logging_error (Txt ("Error al ejecutar el comando "
                         +:+ PyStr.repr_list comando +:+ ": " +:+ e));;
     ret None).

Definition ejecutar_pruebas : M bool :=
  resultado ← ejecutar_comando ["pytest"; "tests.py"];
  match resultado with
  | Some r => if decide (returncode r = 0) then ret true else ret false
  | None => ret false
  end.

Definition completion_request (codigo : string) : CompletionRequest :=
  {| engine := "text-davinci-003";
     prompt := "Mejora el siguiente código:" +:+ nl +:+ nl +:+ codigo +:+ nl +:+ nl;
     max_tokens := 300;
     n := 1;
     stop := None;
     temperature := Qmake 1 2 |}.

(** The body of the [for] loop: the new [codigo], or [None] when the
    [except] branch returned. *)
Definition mejorar_paso (i : nat) (codigo : string) : M (option string) :=
  try_except
    (response ← openai_Completion_create i (completion_request codigo);
     choice ← first_choice response;
     let sugerencia := PyStr.strip choice in
     logging_info (Txt ("Iteración " +:+ pretty (i + 1)%nat
                        +:+ " - Código mejorado:" +:+ nl +:+ sugerencia));;
     ret (Some sugerencia))
    (λ e,
     logging_error (Txt ("Error al generar mejoras en el código: " +:+ e));;
     ret None).

(** [for i in range(iteraciones)], from round [i] on with [restantes]
    rounds to go. *)
Fixpoint mejorar_bucle (i restantes : nat) (codigo : string) : M (option string) :=
  match restantes with
  | O => ret (Some codigo)
  | S k =>
      paso ← mejorar_paso i codigo;
      match paso with
      | Some sugerencia => mejorar_bucle (S i) k sugerencia
      | None => ret None
      end
  end.

Definition mejorar_codigo (codigo : string) (iteraciones : nat) : M (option string) :=
  mejorar_bucle 0 iteraciones codigo.

Definition calcular_diferencia (original mejorado : string) : list DiffEntry :=
  let diffs := DiffMatchPatch.diff_main original mejorado in
  DiffMatchPatch.diff_cleanupSemantic diffs.

Definition crear_archivo (ruta contenido : string) : M unit :=
  try_except
    (os_makedirs (PosixPath.dirname ruta);;
     py_open_write ruta contenido;;
     logging_info (Txt ("Archivo creado: " +:+ ruta)))
    (λ e, logging_error (Txt ("Error al crear el archivo " +:+ ruta +:+ ": " +:+ e))).

Definition listar_archivos (directorio : string) : M unit :=
  try_except
    ('(entradas, fallo) ← py_os_walk directorio;
     for_each entradas (λ '(root, dirs, files),
       for_each files (λ name, logging_info (Txt (PosixPath.join root name)));;
       for_each dirs (λ name, logging_info (Txt (PosixPath.join root name))));;
     match fallo with
     | Some e => raise e
     | None => ret tt
     end)
    (λ e, logging_error (Txt ("Error al listar archivos en el directorio "
                              +:+ directorio +:+ ": " +:+ e))).

Definition cargar_codigo (ruta : string) : M string :=
  try_except
    (py_open_read ruta)
    (λ e,
     logging_error (Txt ("Error al leer el archivo " +:+ ruta +:+ ": " +:+ e));;
     exit 1).

Definition guardar_codigo (ruta codigo : string) : M unit :=
  crear_archivo ruta codigo.

Definition analizar_codigo (ruta : string) : M unit :=
  resultado ← ejecutar_comando ["pylint"; ruta];
  match resultado with
  | Some r =>
      if decide (returncode r ≠ 0)
      then logging_warning (Txt ("Issues found by pylint:" +:+ nl +:+ stdout r))
      else ret tt
  | None => ret tt
  end.

Definition verificar_estilo_codigo (ruta : string) : M unit :=
  resultado ← ejecutar_comando ["flake8"; ruta];
  match resultado with
  | Some r =>
      if decide (returncode r ≠ 0)
      then logging_warning (Txt ("Issues found by flake8:" +:+ nl +:+ stdout r))
      else ret tt
  | None => ret tt
  end.

(** [not codigo_mejorado] for a value that is a [str] or [None] *)
Definition py_not (x : option string) : bool :=
  match x with
  | None => true
  | Some s => if decide (s = "") then true else false
  end.

Definition nuevo_codigo : string :=
  nl +:+ "def resta(a, b):" +:+ nl +:+ "    return a - b" +:+ nl.

Definition main : M unit :=
  codigo_original ← cargar_codigo "codigo.py";
  pasa ← ejecutar_pruebas;
  (if pasa
   then logging_info (Txt "El código original pasa todas las pruebas.")
   else logging_info (Txt "El código original no pasa todas las pruebas.");;
        exit 1);;
  let iteraciones := 3%nat in
  resultado ← mejorar_codigo codigo_original iteraciones;
  codigo_mejorado ←
    (if py_not resultado
     then logging_info (Txt "No se pudo generar mejoras en el código.");;
          exit 1
     else ret (default "" resultado));
  guardar_codigo "temp/codigo_mejorado.py" codigo_mejorado;;
  let diferencia := calcular_diferencia codigo_original codigo_mejorado in
  logging_info (Txt "Diferencias entre el código original y el mejorado:");;
  for_each diferencia (λ diff, logging_info (DiffObj diff));;
  analizar_codigo "temp/codigo_mejorado.py";;
  verificar_estilo_codigo "temp/codigo_mejorado.py";;
  try_except
    (shutil_move "temp/codigo_mejorado.py" "codigo.py")
    (λ e,
     logging_error (Txt ("Error al renombrar el archivo temporal: " +:+ e));;
     exit 1);;
  pasa ← ejecutar_pruebas;
  (if pasa
   then logging_info
          (Txt "El código mejorado pasa todas las pruebas y ha sido aplicado.")
   else logging_info
          (Txt "El código mejorado no pasa todas las pruebas, se mantiene el código original.");;
        guardar_codigo "codigo.py" codigo_original);;
  guardar_codigo "nuevas_funciones/resta.py" nuevo_codigo;;
  logging_info (Txt "Archivos en el proyecto:");;
  listar_archivos ".".

End Script.

Local Open Scope script_scope.

(** ** Vocabulary of the statements

    What the claims talk about, read off the environment without running
    the script. *)

Section Vocabulary.

Variable E : Env.

(** The Test Gate on a file system: pytest ran and returned 0. *)
Definition test_gate (m : FS) : bool :=
  match subprocess_run E ["pytest"; "tests.py"] m with
  | Ok r => bool_decide (returncode r = 0)
  | Raise _ => false
  end.

(** The canonical source file is readable and holds [orig]. *)
Definition loads (m : FS) (orig : string) : Prop :=
  guarded E (OpRead "codigo.py") (Os.read_text "codigo.py" m) = Ok orig.

(** One round-trip, as the spec words it: the prompt embeds the current
    text, the first candidate is taken and stripped. *)
Definition round_trip (i : nat) (codigo : string) : Exc string :=
  match completion_create E i (completion_request codigo) with
  | Ok (candidate :: _) => Ok (PyStr.strip candidate)
  | Ok [] => Raise "list index out of range"
  | Raise e => Raise e
  end.

Definition fold_step (current : option string) (i : nat) : option string :=
  match current with
  | Some codigo =>
      match round_trip i codigo with
      | Ok sugerencia => Some sugerencia
      | Raise _ => None
      end
  | None => None
  end.

(** The engine as the spec words it: a fold of [N] round-trips over the
    code text, null as soon as one of them fails. *)
Definition engine_fold (codigo : string) (N : nat) : option string :=
  foldl fold_step (Some codigo) (seq 0 N).

(** The same fold started at round [i], and the requests the loop sends
    from round [i] on while [k] rounds remain. *)
Definition fold_from (i : nat) (codigo : string) (k : nat) : option string :=
  foldl fold_step (Some codigo) (seq i k).

Fixpoint requests_from (i k : nat) (codigo : string) : list Event :=
  match k with
  | O => []
  | S k' =>
      EvRequest i (completion_request codigo)
        :: match round_trip i codigo with
           | Ok sugerencia => requests_from (S i) k' sugerencia
           | Raise _ => []
           end
  end.

(** The request of round [i] when rounds [0 .. i-1] went through. *)
Definition request_of_round (codigo : string) (i : nat) : Event :=
  EvRequest i (completion_request (default "" (engine_fold codigo i))).

(** What [crear_archivo] leaves on disk: the file when both steps go
    through, the directories when only [os.makedirs] does, nothing new
    otherwise. *)
Definition written (ruta contenido : string) (m : FS) : FS :=
  match guarded E (OpMakedirs (PosixPath.dirname ruta))
                (Os.makedirs (PosixPath.dirname ruta) m) with
  | Raise _ => m
  | Ok m1 =>
      match guarded E (OpWrite ruta) (Os.write_text ruta contenido m1) with
      | Raise _ => m1
      | Ok m2 => m2
      end
  end.

(** The improved text [impr] is staged in [temp/] and moved over the
    canonical file, every step going through; the result is the file
    system the post-swap Test Gate runs on. *)
Definition stage_and_swap (impr : string) (m : FS) : Exc FS :=
  match guarded E (OpMakedirs "temp") (Os.makedirs "temp" m) with
  | Raise e => Raise e
  | Ok m1 =>
      match guarded E (OpWrite "temp/codigo_mejorado.py")
                    (Os.write_text "temp/codigo_mejorado.py" impr m1) with
      | Raise e => Raise e
      | Ok m2 =>
          guarded E (OpMove "temp/codigo_mejorado.py" "codigo.py")
                  (Os.move "temp/codigo_mejorado.py" "codigo.py" m2)
      end
  end.

(** What the move of the staged file over the canonical file gives,
    whatever the staging before it did. *)
Definition swapped (impr : string) (m : FS) : Exc FS :=
  guarded E (OpMove "temp/codigo_mejorado.py" "codigo.py")
    (Os.move "temp/codigo_mejorado.py" "codigo.py"
       (written "temp/codigo_mejorado.py" impr m)).

(** The exit status and the file system a run ends with, as a function
    of the file system it starts from. *)
Definition outcome (m : FS) : Z * FS :=
  match guarded E (OpRead "codigo.py") (Os.read_text "codigo.py" m) with
  | Raise _ => (1, m)
  | Ok orig =>
      if test_gate m then
        match engine_fold orig 3 with
        | None => (1, m)
        | Some impr =>
            if decide (impr = "") then (1, m)
            else
              match swapped impr m with
              | Raise _ => (1, written "temp/codigo_mejorado.py" impr m)
              | Ok m3 =>
                  (0, written "nuevas_funciones/resta.py" nuevo_codigo
                        (if test_gate m3 then m3 else written "codigo.py" orig m3))
              end
        end
      else (1, m)
  end.


End Vocabulary.


(** A linter command: [pylint] or [flake8] on some path. *)
Definition is_linter (comando : list string) : Prop :=
  ∃ ruta, comando = ["pylint"; ruta] ∨ comando = ["flake8"; ruta].

(** Two environments that are the same except for what the linters
    report. *)
Definition same_but_linters (E1 E2 : Env) : Prop :=
  (∀ comando m, ¬ is_linter comando →
     subprocess_run E1 comando m = subprocess_run E2 comando m)
  ∧ (∀ i req, completion_create E1 i req = completion_create E2 i req)
  ∧ (∀ op, io_error E1 op = io_error E2 op)
  ∧ (∀ d m, os_walk E1 d m = os_walk E2 d m).


(** [after w m t w']: [w'] is [w] with file system [m], [t] appended to
    the trace and something appended to the log. *)
Definition after (w : World) (m : FS) (t : list Event) (w' : World) : Prop :=
  fs w' = m ∧ trace w' = (trace w ++ t)%list ∧ ∃ l, log w' = (log w ++ l)%list.

(** The log record a failed restore leaves, and the one that announces
    that the engine gave nothing usable. *)
Definition restore_error (e : string) : LogRecord :=
  {| level := ERROR; msg := Txt ("Error al crear el archivo codigo.py: " +:+ e) |}.

Definition no_improvement : LogRecord :=
  {| level := INFO; msg := Txt "No se pudo generar mejoras en el código." |}.

(** The log and the trace only grow. *)
Definition grows (w w' : World) : Prop :=
  (∃ l, log w' = (log w ++ l)%list) ∧ (∃ t, trace w' = (trace w ++ t)%list).

(** ** A concrete project

    The project of the end-to-end scenario: [codigo.py] defines [suma],
    [tests.py] checks it.  The environments below differ in what the
    completion service answers and in what the linters report. *)

Module Demo.

Definition original : string :=
  "def suma(a, b):" +:+ nl +:+ "    return a + b" +:+ nl.

Definition impr_good : string :=
  "def suma(a, b):" +:+ nl +:+ "    return b + a".

Definition impr_broken : string := "def suma(a, b) return".

Definition tests_py : string :=
  "from codigo import suma" +:+ nl +:+ "def test_suma():" +:+ nl
  +:+ "    assert suma(1, 2) == 3" +:+ nl.

Definition disk : FS :=
  <["codigo.py" := File original]> (<["tests.py" := File tests_py]> ∅).

Definition start : World := {| fs := disk; log := []; trace := [] |}.

Definition is_linter_b (comando : list string) : bool :=
  match comando with
  | [c; _] => bool_decide (c = "pylint" ∨ c = "flake8")
  | _ => false
  end.

(** pytest passes when [codigo.py] holds one of the two working versions
    of [suma]; the linters report [lint_rc]; nothing else is installed. *)
Definition run (lint_rc : Z) (comando : list string) (m : FS) : Exc CompletedProcess :=
  if decide (comando = ["pytest"; "tests.py"]) then
    match m !! "codigo.py" with
    | Some (File c) =>
        if decide (c = original ∨ c = impr_good)
        then Ok {| returncode := 0; stdout := "1 passed"; stderr := "" |}
        else Ok {| returncode := 1; stdout := "1 failed"; stderr := "" |}
    | _ => Ok {| returncode := 2; stdout := "no tests ran"; stderr := "" |}
    end
  else if is_linter_b comando
  then Ok {| returncode := lint_rc; stdout := "report"; stderr := "" |}
  else Raise "[Errno 2] No such file or directory".

Definition walk (d : string) (m : FS)
  : list (string * list string * list string) * option string :=
  ([(d, ["nuevas_funciones"], ["codigo.py"; "tests.py"]);
    (PosixPath.join d "nuevas_funciones", [], ["resta.py"])], None).

Definition env (replies : nat → Exc (list string)) (lint_rc : Z) : Env :=
  {| subprocess_run := run lint_rc;
     completion_create := λ i _, replies i;
     io_error := λ _, None;
     os_walk := walk |}.

(** The service answers every round with the working rewrite. *)
Definition env_good : Env := env (λ _, Ok ["  " +:+ impr_good +:+ nl]) 0.

(** The service answers every round with a function that does not parse. *)
Definition env_broken : Env := env (λ _, Ok [impr_broken; impr_good]) 0.

(** No credential: every request is refused. *)
Definition env_no_key : Env := env (λ _, Raise "No API key provided.") 0.

(** The second round-trip fails. *)
Definition env_second_fails : Env :=
  env (λ i, if decide (i = 1%nat) then Raise "Rate limit reached" else Ok [impr_good]) 0.

(** The last answer is blank. *)
Definition env_blank : Env :=
  env (λ i, if decide (i = 2%nat) then Ok [" " +:+ nl] else Ok [impr_good]) 0.

(** pytest fails on the original. *)
Definition disk_failing : FS :=
  <["codigo.py" := File impr_broken]> (<["tests.py" := File tests_py]> ∅).

End Demo.

(** * Properties *)

(** ** The text and path functions on examples *)

Example strip_code_block :
  PyStr.strip ("  def f():" +:+ nl +:+ "    return 1" +:+ nl +:+ " ")
  = "def f():" +:+ nl +:+ "    return 1".
Proof. reflexivity. Qed.

(** U+00A0, a tab, the text, U+2028 *)
Example strip_unicode_spaces :
  PyStr.strip (String "194" (String "160" (String "009" "x y"
               +:+ String "226" (String "128" (String "168" "")))))
  = "x y".
Proof. vm_compute. reflexivity. Qed.

Example strip_blank : PyStr.strip (nl +:+ String "009" " ") = "".
Proof. reflexivity. Qed.

Example dirname_bare_name : PosixPath.dirname "codigo.py" = "".
Proof. reflexivity. Qed.

Example dirname_staged : PosixPath.dirname "temp/codigo_mejorado.py" = "temp".
Proof. reflexivity. Qed.

Example dirname_more :
  PosixPath.dirname "a//b" = "a" ∧ PosixPath.dirname "//a" = "//"
  ∧ PosixPath.dirname "a/b/c" = "a/b" ∧ PosixPath.basename "a/b/c" = "c".
Proof. repeat split; reflexivity. Qed.

Example join_examples :
  PosixPath.join "." "b" = "./b" ∧ PosixPath.join "a/" "b" = "a/b"
  ∧ PosixPath.join "a" "/b" = "/b" ∧ PosixPath.join "" "b" = "b".
Proof. repeat split; reflexivity. Qed.

Example repr_command :
  PyStr.repr_list ["pytest"; "tests.py"] = "['pytest', 'tests.py']".
Proof. reflexivity. Qed.

(** [os.makedirs] of the directory part of a bare file name is refused,
    whatever is on disk. *)
Lemma makedirs_empty_name (m : FS) :
  Os.makedirs (PosixPath.dirname "codigo.py") m
  = Raise "[Errno 2] No such file or directory: ''".
Proof. reflexivity. Qed.

(** ** Stepping through the monad *)

Lemma after_refl w : after w (fs w) [] w.
Proof.
  repeat split; [by rewrite app_nil_r|]. exists []. by rewrite app_nil_r.
Qed.

Lemma after_trans w w1 w2 m1 m2 t1 t2 :
  after w m1 t1 w1 → after w1 m2 t2 w2 → after w m2 (t1 ++ t2) w2.
Proof.
  intros (_ & Ht1 & l1 & Hl1) (Hm & Ht2 & l2 & Hl2). repeat split; [done|..].
  - by rewrite Ht2, Ht1, app_assoc.
  - exists (l1 ++ l2)%list. by rewrite Hl2, Hl1, app_assoc.
Qed.

Lemma after_add_log r w : after w (fs w) [] (add_log r w).
Proof.
  repeat split; simpl; [by rewrite app_nil_r|]. by exists [r].
Qed.

Lemma after_add_log_trans r w w1 m t :
  after w m t w1 → after w m t (add_log r w1).
Proof.
  intros H. replace t with (t ++ [])%list by apply app_nil_r.
  eapply after_trans; [exact H|]. destruct H as (<- & _). apply after_add_log.
Qed.

Lemma after_grows w m t w' : after w m t w' → grows w w'.
Proof. intros (_ & Ht & Hl). split; [done|]. by exists t. Qed.

Lemma grows_refl w : grows w w.
Proof. split; exists []; by rewrite app_nil_r. Qed.

Lemma grows_trans w1 w2 w3 : grows w1 w2 → grows w2 w3 → grows w1 w3.
Proof.
  intros [[l1 Hl1] [t1 Ht1]] [[l2 Hl2] [t2 Ht2]]. split.
  - exists (l1 ++ l2)%list. by rewrite Hl2, Hl1, app_assoc.
  - exists (t1 ++ t2)%list. by rewrite Ht2, Ht1, app_assoc.
Qed.

Lemma fs_add_log r w : fs (add_log r w) = fs w.
Proof. reflexivity. Qed.

Lemma fs_record_event ev w : fs (record_event ev w) = fs w.
Proof. reflexivity. Qed.

Lemma after_fs w m t w' : after w m t w' → fs w' = m.
Proof. by intros (? & _). Qed.

Lemma grows_step w0 w m t w' : grows w0 w → after w m t w' → grows w0 w'.
Proof. intros H0 H. eapply grows_trans; [exact H0|]. by eapply after_grows. Qed.

Lemma grows_add_log r w0 w : grows w0 w → grows w0 (add_log r w).
Proof. intros H. eapply grows_step; [exact H|]. apply after_add_log. Qed.

Lemma grows_record_event ev w : grows w (record_event ev w).
Proof. split; [exists []; by rewrite app_nil_r|by exists [ev]]. Qed.

Lemma grows_log r w w' : grows w w' → r ∈ log w → r ∈ log w'.
Proof. intros [[l ->] _] Hin. apply elem_of_app. by left. Qed.

Lemma bind_done {A B} (c : M A) (f : A → M B) w a w' :
  c w = Done a w' → bind c f w = f a w'.
Proof. unfold bind. by intros ->. Qed.

Lemma bind_exit {A B} (c : M A) (f : A → M B) w code w' :
  c w = Exit code w' → bind c f w = Exit code w'.
Proof. unfold bind. by intros ->. Qed.

Ltac step_with H := rewrite (bind_done _ _ _ _ _ H); cbv beta.
Ltac step_log := erewrite bind_done by reflexivity; cbv beta.
Ltac step_with_in H Hr := rewrite (bind_done _ _ _ _ _ H) in Hr; cbv beta in Hr.
Ltac step_log_in Hr := erewrite bind_done in Hr by reflexivity; cbv beta in Hr.

(** ** What each function of the script does *)

Section Functions.

Variable E : Env.

Lemma ejecutar_comando_spec comando w :
  ∃ w', ejecutar_comando E comando w
        = Done (match subprocess_run E comando (fs w) with
                | Ok r => Some r
                | Raise _ => None
                end) w'
        ∧ after w (fs w) [EvRun comando] w'.
Proof.
  unfold ejecutar_comando, try_except, bind, py_subprocess_run, of_exc.
  destruct (subprocess_run E comando (fs w)) as [r|e]; simpl;
    eexists; (split; [reflexivity|]); repeat split; simpl; eauto.
Qed.

Lemma ejecutar_pruebas_spec w :
  ∃ w', ejecutar_pruebas E w = Done (test_gate E (fs w)) w'
        ∧ after w (fs w) [EvRun ["pytest"; "tests.py"]] w'.
Proof.
  destruct (ejecutar_comando_spec ["pytest"; "tests.py"] w) as (w' & Hrun & Haft).
  exists w'. split; [|done]. unfold ejecutar_pruebas. step_with Hrun.
  unfold test_gate. destruct (subprocess_run E _ (fs w)) as [r|e]; [|done].
  unfold ret. by destruct (decide (returncode r = 0)) as [Hr|Hr];
    [rewrite bool_decide_eq_true_2|rewrite bool_decide_eq_false_2].
Qed.

(** A linter run leaves the disk alone, whatever the linter reports. *)
Lemma analizar_codigo_spec ruta w :
  ∃ w', analizar_codigo E ruta w = Done tt w'
        ∧ after w (fs w) [EvRun ["pylint"; ruta]] w'.
Proof.
  destruct (ejecutar_comando_spec ["pylint"; ruta] w) as (w' & Hrun & Haft).
  unfold analizar_codigo. step_with Hrun.
  destruct (subprocess_run E _ (fs w)) as [r|e]; [|by exists w'].
  destruct (decide (returncode r ≠ 0)); [|by exists w'].
  eexists. split; [reflexivity|]. by apply after_add_log_trans.
Qed.

Lemma verificar_estilo_codigo_spec ruta w :
  ∃ w', verificar_estilo_codigo E ruta w = Done tt w'
        ∧ after w (fs w) [EvRun ["flake8"; ruta]] w'.
Proof.
  destruct (ejecutar_comando_spec ["flake8"; ruta] w) as (w' & Hrun & Haft).
  unfold verificar_estilo_codigo. step_with Hrun.
  destruct (subprocess_run E _ (fs w)) as [r|e]; [|by exists w'].
  destruct (decide (returncode r ≠ 0)); [|by exists w'].
  eexists. split; [reflexivity|]. by apply after_add_log_trans.
Qed.

Lemma for_each_log {A} (l : list A) (f : A → Msg) w :
  ∃ w', for_each l (λ x, logging_info (f x)) w = Done tt w'
        ∧ after w (fs w) [] w'.
Proof.
  revert w. induction l as [|x l IH]; intros w.
  - exists w. split; [done|apply after_refl].
  - simpl. step_log.
    destruct (IH (add_log {| level := INFO; msg := f x |} w)) as (w' & -> & Haft).
    exists w'. split; [done|].
    change [] with (@nil Event ++ [])%list.
    eapply after_trans; [apply after_add_log|exact Haft].
Qed.

Lemma listar_archivos_spec directorio w :
  ∃ w', listar_archivos E directorio w = Done tt w'
        ∧ after w (fs w) [EvWalk directorio] w'.
Proof.
  unfold listar_archivos, try_except.
  assert (Hwalk : py_os_walk E directorio w
          = Done (os_walk E directorio (fs w)) (record_event (EvWalk directorio) w))
    by done.
  step_with Hwalk. clear Hwalk.
  destruct (os_walk E directorio (fs w)) as [entradas fallo].
  assert (Hbody : ∀ w0, ∃ w1,
    for_each entradas (λ '(root, dirs, files),
       bind (for_each files (λ name, logging_info (Txt (PosixPath.join root name))))
            (λ _, for_each dirs (λ name, logging_info (Txt (PosixPath.join root name))))) w0
    = Done tt w1 ∧ after w0 (fs w0) [] w1).
  { induction entradas as [|[[root dirs] files] entradas IH]; intros w0.
    - exists w0. split; [done|apply after_refl].
    - simpl.
      destruct (for_each_log files (λ name, Txt (PosixPath.join root name)) w0)
        as (wa & Ha & Hafta).
      destruct (for_each_log dirs (λ name, Txt (PosixPath.join root name)) wa)
        as (wb & Hb & Haftb).
      destruct (IH wb) as (wc & Hc & Haftc).
      exists wc. split.
      + erewrite bind_done; [exact Hc|]. by step_with Ha.
      + pose proof (after_trans _ _ _ _ _ _ _ Hafta Haftb) as H1.
        pose proof (after_trans _ _ _ _ _ _ _ H1 Haftc) as H2.
        destruct Hafta as (<- & _). destruct Haftb as (<- & _). exact H2. }
  destruct (Hbody (record_event (EvWalk directorio) w)) as (w1 & Hrun & Haft).
  step_with Hrun.
  assert (Hstart : after w (fs w) [EvWalk directorio] (record_event (EvWalk directorio) w)).
  { repeat split. exists []. by rewrite app_nil_r. }
  pose proof (after_trans _ _ _ _ _ _ _ Hstart Haft) as Hall. simpl in Hall.
  destruct fallo as [e|].
  - eexists. split; [reflexivity|]. by apply after_add_log_trans.
  - by exists w1.
Qed.

Lemma crear_archivo_spec ruta contenido w :
  ∃ w' t, crear_archivo E ruta contenido w = Done tt w'
          ∧ after w (written E ruta contenido (fs w)) t w'.
Proof.
  unfold crear_archivo, try_except, bind, os_makedirs, py_open_write, update_fs, written.
  destruct (guarded E (OpMakedirs _) _) as [m1|e]; simpl.
  - destruct (guarded E (OpWrite ruta) _) as [m2|e]; simpl;
      do 2 eexists; (split; [reflexivity|]); repeat split; simpl; eauto;
      by rewrite <- app_assoc.
  - do 2 eexists. split; [reflexivity|]. repeat split; simpl; eauto.
Qed.

(** The restore writes to a bare file name: [os.makedirs('')] raises, the
    handler logs the error, and the disk is as before. *)
Lemma crear_archivo_bare_name contenido w :
  ∃ e w', crear_archivo E "codigo.py" contenido w = Done tt w'
          ∧ fs w' = fs w
          ∧ log w' = (log w ++ [{| level := ERROR;
                                  msg := Txt ("Error al crear el archivo codigo.py: " +:+ e) |}])%list
          ∧ trace w' = (trace w ++ [EvMakedirs ""])%list.
Proof.
  unfold crear_archivo, try_except, bind, os_makedirs, update_fs, guarded.
  change (PosixPath.dirname "codigo.py") with "".
  destruct (io_error E (OpMakedirs "")) as [e|]; simpl; by do 2 eexists.
Qed.

Lemma written_bare_name contenido m : written E "codigo.py" contenido m = m.
Proof.
  unfold written, guarded. change (PosixPath.dirname "codigo.py") with "".
  by destruct (io_error E (OpMakedirs "")).
Qed.

Lemma cargar_codigo_ok w orig :
  loads E (fs w) orig →
  cargar_codigo E "codigo.py" w = Done orig (record_event (EvRead "codigo.py") w).
Proof.
  unfold loads, cargar_codigo, try_except, py_open_read. by intros ->.
Qed.

Lemma cargar_codigo_fail w e :
  guarded E (OpRead "codigo.py") (Os.read_text "codigo.py" (fs w)) = Raise e →
  ∃ w', cargar_codigo E "codigo.py" w = Exit 1 w'
        ∧ after w (fs w) [EvRead "codigo.py"] w'.
Proof.
  unfold cargar_codigo, try_except, py_open_read. intros ->. simpl.
  eexists. split; [reflexivity|]. repeat split; simpl; eauto.
Qed.

Lemma mejorar_paso_spec i codigo w :
  ∃ w', mejorar_paso E i codigo w = Done (fold_step E (Some codigo) i) w'
        ∧ after w (fs w) [EvRequest i (completion_request codigo)] w'.
Proof.
  unfold mejorar_paso, try_except, bind, openai_Completion_create, of_exc,
    fold_step, round_trip.
  destruct (completion_create E i (completion_request codigo)) as [[|c l]|e]; simpl;
    eexists; (split; [reflexivity|]); repeat split; simpl; eauto.
Qed.

Lemma foldl_fold_step_None l : foldl (fold_step E) None l = None.
Proof. by induction l. Qed.

Lemma fold_from_S i codigo k :
  fold_from E i codigo (S k)
  = match round_trip E i codigo with
    | Ok sugerencia => fold_from E (S i) sugerencia k
    | Raise _ => None
    end.
Proof.
  unfold fold_from. simpl. destruct (round_trip E i codigo); [done|].
  apply foldl_fold_step_None.
Qed.

Lemma mejorar_bucle_spec k : ∀ i codigo w,
  ∃ w', mejorar_bucle E i k codigo w = Done (fold_from E i codigo k) w'
        ∧ after w (fs w) (requests_from E i k codigo) w'.
Proof.
  induction k as [|k IH]; intros i codigo w.
  - exists w. split; [done|apply after_refl].
  - destruct (mejorar_paso_spec i codigo w) as (w1 & Hpaso & Haft1).
    cbn [mejorar_bucle requests_from]. step_with Hpaso.
    rewrite fold_from_S. unfold fold_step.
    destruct (round_trip E i codigo) as [sugerencia|e].
    + destruct (IH (S i) sugerencia w1) as (w2 & Hrun & Haft2).
      exists w2. split; [done|].
      pose proof (after_trans _ _ _ _ _ _ _ Haft1 Haft2) as Hall.
      destruct Haft1 as (<- & _). exact Hall.
    + by exists w1.
Qed.

Lemma mejorar_codigo_spec codigo N w :
  ∃ w', mejorar_codigo E codigo N w = Done (engine_fold E codigo N) w'
        ∧ after w (fs w) (requests_from E 0 N codigo) w'.
Proof. apply mejorar_bucle_spec. Qed.

(** When no round fails, the requests are those of rounds [i .. i+k-1],
    each carrying the value the fold has reached. *)
Lemma requests_from_all k : ∀ i codigo r,
  fold_from E i codigo k = Some r →
  requests_from E i k codigo
  = map (λ j, EvRequest j (completion_request
                             (default "" (fold_from E i codigo (j - i))))) (seq i k).
Proof.
  induction k as [|k IH]; intros i codigo r Hr; [done|].
  rewrite fold_from_S in Hr. cbn [requests_from seq map].
  rewrite Nat.sub_diag. f_equal.
  destruct (round_trip E i codigo) as [sugerencia|e] eqn:Hround; [|done].
  rewrite (IH _ _ _ Hr). apply map_ext_in. intros j Hj.
  apply in_seq in Hj. replace (j - i)%nat with (S (j - S i)) by lia.
  by rewrite fold_from_S, Hround.
Qed.

(** When round [i + k'] is the first to fail, it is also the last one
    requested. *)
Lemma requests_from_until k : ∀ i codigo k' c e,
  (k' < k)%nat →
  fold_from E i codigo k' = Some c →
  round_trip E (i + k') c = Raise e →
  fold_from E i codigo k = None
  ∧ requests_from E i k codigo
    = map (λ j, EvRequest j (completion_request
                               (default "" (fold_from E i codigo (j - i))))) (seq i (S k')).
Proof.
  induction k as [|k IH]; intros i codigo k' c e Hlt Hc He; [lia|].
  rewrite fold_from_S. cbn [requests_from].
  destruct k' as [|k'].
  - injection Hc as <-. rewrite Nat.add_0_r in He. rewrite He.
    split; [done|]. simpl. by rewrite Nat.sub_diag.
  - rewrite fold_from_S in Hc.
    destruct (round_trip E i codigo) as [sugerencia|e'] eqn:Hround; [|done].
    replace (i + S k')%nat with (S i + k')%nat in He by lia.
    destruct (IH (S i) sugerencia k' c e ltac:(lia) Hc He) as [Hnone Hreqs].
    split; [done|]. rewrite Hreqs.
    change (seq i (S (S k'))) with (i :: seq (S i) (S k')).
    cbn [map]. rewrite Nat.sub_diag. f_equal.
    apply map_ext_in. intros j Hj.
    apply in_seq in Hj. replace (j - i)%nat with (S (j - S i)) by lia.
    by rewrite fold_from_S, Hround.
Qed.

End Functions.

(** ** The paths through [main] *)

Section MainPaths.

Variable E : Env.

Lemma main_load_fails w e :
  guarded E (OpRead "codigo.py") (Os.read_text "codigo.py" (fs w)) = Raise e →
  ∃ wf, main E w = Exit 1 wf ∧ after w (fs w) [EvRead "codigo.py"] wf.
Proof.
  intros Hload. destruct (cargar_codigo_fail E w e Hload) as (wf & Hrun & Haft).
  exists wf. split; [|done]. unfold main. by rewrite (bind_exit _ _ _ _ _ Hrun).
Qed.

Lemma main_gate_fails w orig :
  loads E (fs w) orig →
  test_gate E (fs w) = false →
  ∃ wf, main E w = Exit 1 wf
        ∧ after w (fs w) [EvRead "codigo.py"; EvRun ["pytest"; "tests.py"]] wf.
Proof.
  intros Hload Hgate. unfold main.
  step_with (cargar_codigo_ok E w orig Hload).
  destruct (ejecutar_pruebas_spec E (record_event (EvRead "codigo.py") w))
    as (w2 & Hrun & Haft).
  step_with Hrun. cbn [fs record_event] in *. rewrite Hgate.
  eexists. split; [reflexivity|].
  apply after_add_log_trans.
  change [EvRead "codigo.py"; EvRun ["pytest"; "tests.py"]]
    with ([EvRead "codigo.py"] ++ [EvRun ["pytest"; "tests.py"]])%list.
  eapply after_trans; [|exact Haft].
  repeat split. exists []. by rewrite app_nil_r.
Qed.

Lemma main_no_improvement w orig :
  loads E (fs w) orig →
  test_gate E (fs w) = true →
  py_not (engine_fold E orig 3) = true →
  ∃ wf, main E w = Exit 1 wf
        ∧ after w (fs w) ([EvRead "codigo.py"; EvRun ["pytest"; "tests.py"]]
                            ++ requests_from E 0 3 orig) wf
        ∧ last (log wf) = Some no_improvement.
Proof.
  intros Hload Hgate Hnot. unfold main.
  step_with (cargar_codigo_ok E w orig Hload).
  destruct (ejecutar_pruebas_spec E (record_event (EvRead "codigo.py") w))
    as (w2 & Hrun2 & Haft2).
  step_with Hrun2. cbn [fs record_event] in *. rewrite Hgate.
  step_log. cbv zeta.
  destruct (mejorar_codigo_spec E orig 3
              (add_log {| level := INFO;
                          msg := Txt "El código original pasa todas las pruebas." |} w2))
    as (w3 & Hrun3 & Haft3).
  step_with Hrun3. rewrite Hnot.
  eexists. split; [reflexivity|]. split.
  - apply after_add_log_trans.
    assert (H1 : after w (fs w) [EvRead "codigo.py"] (record_event (EvRead "codigo.py") w)).
    { repeat split. exists []. by rewrite app_nil_r. }
    pose proof (after_trans _ _ _ _ _ _ _ H1 Haft2) as H2.
    pose proof (after_add_log_trans
      {| level := INFO; msg := Txt "El código original pasa todas las pruebas." |}
      _ _ _ _ H2) as H3.
    pose proof (after_trans _ _ _ _ _ _ _ H3 Haft3) as H4.
    rewrite fs_add_log, (after_fs _ _ _ _ Haft2) in H4. exact H4.
  - simpl. apply last_snoc.
Qed.

Lemma main_staged w orig impr :
  loads E (fs w) orig →
  test_gate E (fs w) = true →
  engine_fold E orig 3 = Some impr →
  impr ≠ "" →
  match swapped E impr (fs w) with
  | Raise _ =>
      ∃ wf, main E w = Exit 1 wf
            ∧ fs wf = written E "temp/codigo_mejorado.py" impr (fs w)
            ∧ grows w wf
  | Ok m3 =>
      ∃ wf, main E w = Done tt wf
            ∧ fs wf = written E "nuevas_funciones/resta.py" nuevo_codigo m3
            ∧ grows w wf
            ∧ (test_gate E m3 = false → ∃ e, restore_error e ∈ log wf)
  end.
Proof.
  intros Hload Hgate Hengine Hne.
  set (m2 := written E "temp/codigo_mejorado.py" impr (fs w)).
  unfold swapped. fold m2.
  remember (main E w) as r eqn:Hr. unfold main in Hr.
  step_with_in (cargar_codigo_ok E w orig Hload) Hr.
  destruct (ejecutar_pruebas_spec E (record_event (EvRead "codigo.py") w))
    as (w2 & Hrun2 & Haft2).
  step_with_in Hrun2 Hr. rewrite fs_record_event in *. rewrite Hgate in Hr.
  step_log_in Hr. cbv zeta in Hr.
  match type of Hr with context [bind (mejorar_codigo E orig 3) _ ?w0] =>
    destruct (mejorar_codigo_spec E orig 3 w0) as (w3 & Hrun3 & Haft3) end.
  step_with_in Hrun3 Hr. rewrite Hengine in Hr. unfold py_not in Hr.
  destruct (decide (impr = "")) as [|_]; [done|].
  step_log_in Hr. change (default "" (Some impr)) with impr in Hr.
  assert (Hfs3 : fs w3 = fs w).
  { rewrite (after_fs _ _ _ _ Haft3), fs_add_log. exact (after_fs _ _ _ _ Haft2). }
  assert (Hg3 : grows w w3).
  { eapply grows_step; [|exact Haft3]. apply grows_add_log.
    eapply grows_step; [|exact Haft2]. apply grows_record_event. }
  clear Hrun2 Haft2 Hrun3 Haft3.
  unfold guardar_codigo in Hr.
  destruct (crear_archivo_spec E "temp/codigo_mejorado.py" impr w3)
    as (w4 & t4 & Hrun4 & Haft4).
  step_with_in Hrun4 Hr. step_log_in Hr. rewrite Hfs3 in Haft4. fold m2 in Haft4.
  match type of Hr with context [bind (for_each ?l _) _ ?w0] =>
    destruct (for_each_log l DiffObj w0) as (w5 & Hrun5 & Haft5) end.
  step_with_in Hrun5 Hr.
  destruct (analizar_codigo_spec E "temp/codigo_mejorado.py" w5) as (w6 & Hrun6 & Haft6).
  step_with_in Hrun6 Hr.
  destruct (verificar_estilo_codigo_spec E "temp/codigo_mejorado.py" w6)
    as (w7 & Hrun7 & Haft7).
  step_with_in Hrun7 Hr.
  assert (Hfs7 : fs w7 = m2).
  { rewrite (after_fs _ _ _ _ Haft7), (after_fs _ _ _ _ Haft6),
      (after_fs _ _ _ _ Haft5), fs_add_log. exact (after_fs _ _ _ _ Haft4). }
  assert (Hg7 : grows w w7).
  { eapply grows_step; [|exact Haft7]. eapply grows_step; [|exact Haft6].
    eapply grows_step; [|exact Haft5]. apply grows_add_log.
    eapply grows_step; [|exact Haft4]. exact Hg3. }
  clear Hrun4 Haft4 Hrun5 Haft5 Hrun6 Haft6 Hrun7 Haft7 Hfs3 Hg3 w3 w4 w5 w6 t4.
  unfold bind at 1, try_except, shutil_move, update_fs in Hr. rewrite Hfs7 in Hr.
  destruct (guarded E (OpMove _ _) _) as [m3|e].
  - (* the staged file is in place *)
    cbv beta iota in Hr.
    match type of Hr with context [bind (ejecutar_pruebas E) _ ?w0] =>
      destruct (ejecutar_pruebas_spec E w0) as (w9 & Hrun9 & Haft9);
      assert (Hg8 : grows w w0)
        by (eapply grows_trans; [exact Hg7|]; split; [exists []; by rewrite app_nil_r|by eexists])
    end.
    step_with_in Hrun9 Hr. cbn [fs set_fs] in Hr, Haft9.
    assert (Hg9 : grows w w9) by (eapply grows_step; [exact Hg8|exact Haft9]).
    assert (Hfs9 : fs w9 = m3) by exact (after_fs _ _ _ _ Haft9).
    clear Hrun9 Haft9 Hg8 Hg7 Hfs7.
    destruct (test_gate E m3).
    + (* kept *)
      step_log_in Hr.
      match type of Hr with context [bind (crear_archivo E ?p ?c) _ ?w0] =>
        destruct (crear_archivo_spec E p c w0) as (w10 & t10 & Hrun10 & Haft10) end.
      step_with_in Hrun10 Hr. step_log_in Hr.
      match type of Hr with context [listar_archivos E ?d ?w0] =>
        destruct (listar_archivos_spec E d w0) as (w11 & Hrun11 & Haft11) end.
      rewrite Hrun11 in Hr. exists w11. split; [done|]. split; [|split; [|done]].
      * rewrite (after_fs _ _ _ _ Haft11), fs_add_log, (after_fs _ _ _ _ Haft10),
          fs_add_log. by rewrite Hfs9.
      * eapply grows_step; [|exact Haft11]. apply grows_add_log.
        eapply grows_step; [|exact Haft10]. by apply grows_add_log.
    + (* reverted *)
      match type of Hr with context [bind (logging_info ?x) (λ _, crear_archivo E ?p ?c)] =>
        destruct (crear_archivo_bare_name E c (add_log {| level := INFO; msg := x |} w9))
          as (e & w10 & Hrun10 & Hfs10 & Hlog10 & Htr10) end.
      erewrite (bind_done (bind _ _)) in Hr by (erewrite bind_done by reflexivity; exact Hrun10).
      cbv beta in Hr.
      match type of Hr with context [bind (crear_archivo E ?p ?c) _ ?w0] =>
        destruct (crear_archivo_spec E p c w0) as (w11 & t11 & Hrun11 & Haft11) end.
      step_with_in Hrun11 Hr. step_log_in Hr.
      match type of Hr with context [listar_archivos E ?d ?w0] =>
        destruct (listar_archivos_spec E d w0) as (w12 & Hrun12 & Haft12) end.
      rewrite Hrun12 in Hr. exists w12. split; [done|].
      assert (Hg10 : grows w10 w12).
      { eapply grows_step; [|exact Haft12]. apply grows_add_log.
        eapply grows_step; [|exact Haft11]. apply grows_refl. }
      split; [|split].
      * rewrite (after_fs _ _ _ _ Haft12), fs_add_log, (after_fs _ _ _ _ Haft11).
        by rewrite Hfs10, fs_add_log, Hfs9.
      * eapply grows_trans; [|exact Hg10]. eapply grows_trans; [apply grows_add_log, Hg9|].
        split; [by eexists|]. by eexists.
      * intros _. exists e. eapply grows_log; [exact Hg10|].
        rewrite Hlog10. apply elem_of_app. right. by apply list_elem_of_singleton.
  - (* the move is refused *)
    cbv beta iota in Hr. unfold bind, logging_error, exit in Hr.
    eexists. split; [exact Hr|]. split; [by cbn|].
    apply grows_add_log. eapply grows_trans; [exact Hg7|]. apply grows_record_event.
Qed.

(** The status and the disk a run ends with are a function of the disk
    it starts from. *)
Lemma main_outcome w :
  (exit_status (main E w), fs (final_world (main E w))) = outcome E (fs w).
Proof.
  unfold outcome.
  destruct (guarded E (OpRead "codigo.py") _) as [orig|e] eqn:Hload.
  - destruct (test_gate E (fs w)) eqn:Hgate.
    + destruct (engine_fold E orig 3) as [impr|] eqn:Heng.
      * destruct (decide (impr = "")) as [->|Hne].
        -- destruct (main_no_improvement w orig Hload Hgate) as (wf & -> & Haft & _);
             [by rewrite Heng|].
           simpl. by rewrite (after_fs _ _ _ _ Haft).
        -- pose proof (main_staged w orig impr Hload Hgate Heng Hne) as H.
           destruct (swapped E impr (fs w)) as [m3|e].
           ++ destruct H as (wf & -> & Hfs & _). simpl. rewrite Hfs.
              destruct (test_gate E m3); [done|]. by rewrite written_bare_name.
           ++ destruct H as (wf & -> & Hfs & _). simpl. by rewrite Hfs.
      * destruct (main_no_improvement w orig Hload Hgate) as (wf & -> & Haft & _);
          [by rewrite Heng|].
        simpl. by rewrite (after_fs _ _ _ _ Haft).
    + destruct (main_gate_fails w orig Hload Hgate) as (wf & -> & Haft).
      simpl. by rewrite (after_fs _ _ _ _ Haft).
  - destruct (main_load_fails w e Hload) as (wf & -> & Haft).
    simpl. by rewrite (after_fs _ _ _ _ Haft).
Qed.

End MainPaths.

(** ** The file system under the script's writes *)

Lemma foldr_insert_dir_ne (l : list string) (m : FS) p :
  p ∉ l → foldr (λ d acc, <[d := Dir]> acc) m l !! p = m !! p.
Proof.
  induction l as [|d l IH]; [done|]. intros Hp. simpl.
  apply not_elem_of_cons in Hp as [Hd Hl]. rewrite lookup_insert_ne by done. auto.
Qed.

Lemma written_lookup_other E ruta contenido m p :
  p ≠ ruta →
  p ∉ PosixPath.dir_chain (PosixPath.dirname ruta) →
  written E ruta contenido m !! p = m !! p.
Proof.
  intros Hp Hchain. unfold written, guarded, Os.makedirs, Os.write_text.
  destruct (io_error E (OpMakedirs _)); [done|].
  destruct (decide (PosixPath.dirname ruta = "")); [done|].
  destruct (existsb _ _); [done|].
  destruct (io_error E (OpWrite _)); [by apply foldr_insert_dir_ne|].
  destruct (decide (ruta = "")); [by apply foldr_insert_dir_ne|].
  destruct (Os.is_dir _ ruta); [by apply foldr_insert_dir_ne|].
  destruct (Os.parent_ok _ ruta); [|by apply foldr_insert_dir_ne].
  rewrite lookup_insert_ne by done. by apply foldr_insert_dir_ne.
Qed.


Lemma loads_lookup E m orig : loads E m orig → m !! "codigo.py" = Some (File orig).
Proof.
  unfold loads, guarded, Os.read_text. destruct (io_error E _); [done|].
  destruct (m !! "codigo.py") as [[c|]|]; [|done..]. by intros [= ->].
Qed.

(** When the staging and the swap go through, the improved text is what
    the canonical path holds, and [crear_archivo] has behaved as
    [stage_and_swap] says. *)
Lemma stage_and_swap_ok E m orig impr m3 :
  loads E m orig →
  stage_and_swap E impr m = Ok m3 →
  swapped E impr m = Ok m3
  ∧ m3 !! "codigo.py" = Some (File impr).
Proof.
  intros Hload%loads_lookup. unfold stage_and_swap, swapped, written.
  change (PosixPath.dirname "temp/codigo_mejorado.py") with "temp".
  destruct (guarded E (OpMakedirs "temp") _) as [m1|] eqn:Hdirs; [|done].
  destruct (guarded E (OpWrite _) _) as [m2|] eqn:Hwrite; [|done].
  intros Hmove. split; [done|].
  unfold guarded in *.
  destruct (io_error E (OpMakedirs _)); [done|].
  destruct (io_error E (OpWrite _)); [done|].
  destruct (io_error E (OpMove _ _)); [done|].
  unfold Os.makedirs in Hdirs. change (PosixPath.dir_chain "temp") with ["temp"] in Hdirs.
  destruct (decide ("temp" = "")); [done|].
  destruct (existsb _ _); [done|]. injection Hdirs as <-.
  unfold Os.write_text in Hwrite.
  destruct (decide (_ = "")); [done|].
  destruct (Os.is_dir _ _); [done|]. destruct (Os.parent_ok _ _); [|done].
  injection Hwrite as <-.
  unfold Os.move, Os.is_dir in Hmove. rewrite lookup_insert_eq in Hmove.
  rewrite lookup_insert_ne in Hmove by done. simpl in Hmove.
  rewrite lookup_insert_ne, Hload in Hmove by done.
  change (Os.parent_ok _ "codigo.py") with true in Hmove.
  injection Hmove as <-. by rewrite lookup_insert_eq.
Qed.

(** ** The differ *)

Module DiffFacts.
Import DiffMatchPatch.

Lemma append_cons a s t : String a s +:+ t = String a (s +:+ t).
Proof. reflexivity. Qed.

Lemma append_nil_l s : "" +:+ s = s.
Proof. reflexivity. Qed.

Lemma append_nil_r s : s +:+ "" = s.
Proof. induction s as [|a s IH]; [done|]. by rewrite append_cons, IH. Qed.

Lemma append_assoc s t u : (s +:+ t) +:+ u = s +:+ (t +:+ u).
Proof. induction s as [|a s IH]; [done|]. by rewrite !append_cons, IH. Qed.

(** *** The edit script *)

Lemma script_text_inserts drop ys :
  script_text drop (map (pair DIFF_INSERT) ys)
  = if decide (DIFF_INSERT = drop) then "" else string_of_list_ascii ys.
Proof.
  induction ys as [|y ys IH]; simpl; [by destruct (decide _)|].
  rewrite IH. by destruct (decide _).
Qed.

Lemma script_text_deletes drop xs :
  script_text drop (map (pair DIFF_DELETE) xs)
  = if decide (DIFF_DELETE = drop) then "" else string_of_list_ascii xs.
Proof.
  induction xs as [|x xs IH]; simpl; [by destruct (decide _)|].
  rewrite IH. by destruct (decide _).
Qed.

Lemma lcs_script_original xs : ∀ ys,
  script_text DIFF_INSERT (lcs_script xs ys) = string_of_list_ascii xs.
Proof.
  induction xs as [|x xs IHx]; intros ys.
  - simpl. by rewrite script_text_inserts.
  - induction ys as [|y ys IHy].
    + exact (script_text_deletes DIFF_INSERT (x :: xs)).
    + cbn [lcs_script] in *. destruct (decide (x = y)) as [->|_].
      * simpl. by rewrite IHx.
      * match goal with |- context [if ?b then _ else _] => destruct b end.
        -- simpl. exact IHy.
        -- simpl. by rewrite IHx.
Qed.

Lemma lcs_script_improved xs : ∀ ys,
  script_text DIFF_DELETE (lcs_script xs ys) = string_of_list_ascii ys.
Proof.
  induction xs as [|x xs IHx]; intros ys.
  - simpl. by rewrite script_text_inserts.
  - induction ys as [|y ys IHy].
    + exact (script_text_deletes DIFF_DELETE (x :: xs)).
    + cbn [lcs_script] in *. destruct (decide (x = y)) as [->|_].
      * simpl. by rewrite IHx.
      * match goal with |- context [if ?b then _ else _] => destruct b end.
        -- simpl. f_equal. exact IHy.
        -- simpl. exact (IHx (y :: ys)).
Qed.

Lemma chunks_text drop sc : text_of drop (chunks sc) = script_text drop sc.
Proof.
  induction sc as [|[op c] sc IH]; [done|]. cbn [chunks script_text foldr].
  change (foldr _ "" sc) with (script_text drop sc). rewrite <- IH.
  destruct (chunks sc) as [|[op' t] ds]; simpl.
  - by destruct (decide (op = drop)).
  - destruct (decide (op = op')) as [<-|Hne]; simpl;
      by destruct (decide (op = drop)).
Qed.

(** *** The clean-up *)

Lemma text_of_app drop ds1 ds2 :
  text_of drop (ds1 ++ ds2) = text_of drop ds1 +:+ text_of drop ds2.
Proof.
  induction ds1 as [|[op t] ds1 IH]; [done|]. simpl.
  destruct (decide (op = drop)); [done|]. by rewrite IH, append_assoc.
Qed.

Lemma absorb_equalities_text drop ds : drop ≠ DIFF_EQUAL → ∀ del ins,
  text_of drop (absorb_equalities del ins ds) = text_of drop ds.
Proof.
  intros Hdrop. induction ds as [|[op t] ds IH]; intros del ins; [done|].
  destruct op; cbn [absorb_equalities].
  - simpl. by rewrite IH.
  - simpl. by rewrite IH.
  - destruct (edits_ahead ds) as [d2 i2].
    match goal with |- context [if ?b then _ else _] => destruct b end.
    + simpl. rewrite IH. destruct drop; simpl; done.
    + simpl. by rewrite IH.
Qed.

Lemma flush_text drop del ins :
  text_of drop (flush del ins)
  = (if decide (DIFF_DELETE = drop) then "" else del)
    +:+ (if decide (DIFF_INSERT = drop) then "" else ins).
Proof.
  unfold flush. rewrite text_of_app.
  destruct (decide (del = "")) as [->|_], (decide (ins = "")) as [->|_]; simpl;
    destruct drop; simpl; by rewrite ?append_nil_r.
Qed.

Lemma push_equal_text drop t ds :
  drop ≠ DIFF_EQUAL → text_of drop (push_equal t ds) = t +:+ text_of drop ds.
Proof.
  intros Hdrop. unfold push_equal.
  destruct ds as [|[[] t'] ds]; simpl;
    try (destruct (decide (t = "")) as [->|_]; simpl);
    destruct drop; simpl; by rewrite ?append_assoc.
Qed.

Lemma merge_edits_text drop ds : drop ≠ DIFF_EQUAL → ∀ del ins,
  text_of drop (merge_edits del ins ds)
  = (if decide (DIFF_DELETE = drop) then "" else del)
    +:+ (if decide (DIFF_INSERT = drop) then "" else ins)
    +:+ text_of drop ds.
Proof.
  intros Hdrop. induction ds as [|[op t] ds IH]; intros del ins.
  - simpl. by rewrite flush_text, append_nil_r.
  - destruct op; cbn [merge_edits].
    + rewrite IH. destruct drop; simpl; by rewrite ?append_assoc.
    + rewrite IH. destruct drop; simpl; by rewrite ?append_assoc.
    + rewrite text_of_app, flush_text, push_equal_text, IH by done.
      destruct drop; simpl; by rewrite ?append_assoc.
Qed.

Lemma diff_cleanupSemantic_text drop diffs :
  drop ≠ DIFF_EQUAL →
  text_of drop (diff_cleanupSemantic diffs) = text_of drop diffs.
Proof.
  intros Hdrop. unfold diff_cleanupSemantic.
  rewrite merge_edits_text, absorb_equalities_text by done.
  by destruct drop.
Qed.

End DiffFacts.

(** C7: for every pair of texts, the entries of the diff that are not
    deletions spell the improved text and the entries that are not
    insertions spell the original text. *)
Theorem C7_diff_reconstruction (original mejorado : string) :
  DiffMatchPatch.improved_text (calcular_diferencia original mejorado) = mejorado
  ∧ DiffMatchPatch.original_text (calcular_diferencia original mejorado) = original.
Proof.
  unfold calcular_diferencia, DiffMatchPatch.improved_text,
    DiffMatchPatch.original_text, DiffMatchPatch.diff_main.
  rewrite !DiffFacts.diff_cleanupSemantic_text, !DiffFacts.chunks_text by done.
  rewrite DiffFacts.lcs_script_improved, DiffFacts.lcs_script_original.
  by rewrite !string_of_list_ascii_of_string.
Qed.

Example diff_of_one_changed_character :
  calcular_diferencia "abcxdef" "abcydef"
  = [(DIFF_EQUAL, "abc"); (DIFF_DELETE, "x"); (DIFF_INSERT, "y"); (DIFF_EQUAL, "def")].
Proof. vm_compute. reflexivity. Qed.

(** The single character the two texts share is noise between the edits
    around it; the clean-up folds it into them. *)
Example diff_absorbs_a_short_equality :
  DiffMatchPatch.diff_main "ab1cd" "xy1zw"
  = [(DIFF_DELETE, "ab"); (DIFF_INSERT, "xy"); (DIFF_EQUAL, "1");
     (DIFF_DELETE, "cd"); (DIFF_INSERT, "zw")]
  ∧ calcular_diferencia "ab1cd" "xy1zw"
    = [(DIFF_DELETE, "ab1cd"); (DIFF_INSERT, "xy1zw")].
Proof. split; vm_compute; reflexivity. Qed.

(** ** The run after the swap *)

Lemma main_after_swap E w orig impr m3 :
  loads E (fs w) orig →
  test_gate E (fs w) = true →
  engine_fold E orig 3 = Some impr →
  impr ≠ "" →
  stage_and_swap E impr (fs w) = Ok m3 →
  ∃ wf, main E w = Done tt wf
        ∧ fs wf = written E "nuevas_funciones/resta.py" nuevo_codigo m3
        ∧ fs wf !! "codigo.py" = Some (File impr)
        ∧ grows w wf
        ∧ (test_gate E m3 = false → ∃ e, restore_error e ∈ log wf).
Proof.
  intros Hload Hgate Heng Hne Hswap.
  destruct (stage_and_swap_ok E _ _ _ _ Hload Hswap) as [Hmove Hcanon].
  pose proof (main_staged E w orig impr Hload Hgate Heng Hne) as H.
  rewrite Hmove in H.
  destruct H as (wf & Hrun & Hfs & Hg & Hlog).
  exists wf. split; [done|]. split; [done|]. split; [|done].
  rewrite Hfs, written_lookup_other; [done|done|].
  change (PosixPath.dir_chain _) with ["nuevas_funciones"].
  by intros ?%list_elem_of_singleton.
Qed.

(** ** The claims *)

(** C1 (the code departs from it): when the Test Gate fails after the
    swap the run does end with status 0, but the restore writes nothing
    and the canonical path keeps the improved text.  In the project of
    the end-to-end scenario, with an engine that answers a function that
    does not parse: the original passes its tests, the broken rewrite is
    swapped in, the Test Gate fails on it, and the run ends with status 0
    and the broken rewrite, not the original, in [codigo.py]. *)
Theorem C1_failed_gate_leaves_improved_text :
  loads Demo.env_broken (fs Demo.start) Demo.original
  ∧ test_gate Demo.env_broken (fs Demo.start) = true
  ∧ engine_fold Demo.env_broken Demo.original 3 = Some Demo.impr_broken
  ∧ (∃ m3, stage_and_swap Demo.env_broken Demo.impr_broken (fs Demo.start) = Ok m3
           ∧ test_gate Demo.env_broken m3 = false)
  ∧ exit_status (main Demo.env_broken Demo.start) = 0
  ∧ fs (final_world (main Demo.env_broken Demo.start)) !! "codigo.py"
    = Some (File Demo.impr_broken)
  ∧ Demo.impr_broken ≠ Demo.original.
Proof.
  assert (Hload : loads Demo.env_broken (fs Demo.start) Demo.original)
    by (vm_compute; reflexivity).
  assert (Hgate : test_gate Demo.env_broken (fs Demo.start) = true)
    by (vm_compute; reflexivity).
  assert (Heng : engine_fold Demo.env_broken Demo.original 3 = Some Demo.impr_broken)
    by (vm_compute; reflexivity).
  assert (Hswap : ∃ m3,
    stage_and_swap Demo.env_broken Demo.impr_broken (fs Demo.start) = Ok m3
    ∧ test_gate Demo.env_broken m3 = false).
  { eexists. split; vm_compute; reflexivity. }
  destruct Hswap as (m3 & Hswap & Hfail).
  destruct (main_after_swap _ _ _ _ _ Hload Hgate Heng ltac:(done) Hswap)
    as (wf & Hrun & _ & Hcanon & _).
  rewrite Hrun. cbn [exit_status final_world].
  split; [exact Hload|]. split; [exact Hgate|]. split; [exact Heng|].
  split; [exists m3; split; [exact Hswap|exact Hfail]|].
  split; [reflexivity|]. split; [exact Hcanon|discriminate].
Qed.

(** C2: when the original loads and passes its tests, the engine gives a
    text [impr], [impr] is staged and swapped in and the Test Gate passes
    on the result, the run ends with status 0 and the canonical path
    holds exactly [impr]. *)
Theorem C2_improved_text_kept E w orig impr m3 :
  loads E (fs w) orig →
  test_gate E (fs w) = true →
  engine_fold E orig 3 = Some impr →
  impr ≠ "" →
  stage_and_swap E impr (fs w) = Ok m3 →
  test_gate E m3 = true →
  ∃ wf, main E w = Done tt wf
        ∧ exit_status (main E w) = 0
        ∧ fs wf !! "codigo.py" = Some (File impr).
Proof.
  intros Hload Hgate Heng Hne Hswap _.
  destruct (main_after_swap _ _ _ _ _ Hload Hgate Heng Hne Hswap)
    as (wf & Hrun & _ & Hcanon & _).
  exists wf. by rewrite Hrun.
Qed.

Lemma C2_kept_in_the_demo :
  ∃ wf, main Demo.env_good Demo.start = Done tt wf
        ∧ exit_status (main Demo.env_good Demo.start) = 0
        ∧ fs wf !! "codigo.py" = Some (File Demo.impr_good).
Proof.
  eapply (C2_improved_text_kept Demo.env_good Demo.start Demo.original Demo.impr_good).
  - vm_compute; reflexivity.
  - vm_compute; reflexivity.
  - vm_compute; reflexivity.
  - discriminate.
  - vm_compute; reflexivity.
  - vm_compute; reflexivity.
Defined.

Lemma request_of_round_eq E codigo l :
  map (λ j, EvRequest j (completion_request
                           (default "" (fold_from E 0 codigo (j - 0))))) l
  = map (request_of_round E codigo) l.
Proof. apply map_ext. intros j. by rewrite Nat.sub_0_r. Qed.



(** C4: a round-trip that fails ends the loop at once, with null and no
    further request; and when the original loads and passes its tests but
    the engine gives null, the run ends with status 1 and the disk, the
    canonical file included, is as it was. *)
Theorem C4_failed_round_aborts E :
  (∀ codigo N k c e w,
     (k < N)%nat →
     engine_fold E codigo k = Some c →
     round_trip E k c = Raise e →
     ∃ w', mejorar_codigo E codigo N w = Done None w'
           ∧ fs w' = fs w
           ∧ trace w' = (trace w ++ map (request_of_round E codigo) (seq 0 (S k)))%list)
  ∧ (∀ w orig,
       loads E (fs w) orig →
       test_gate E (fs w) = true →
       engine_fold E orig 3 = None →
       ∃ wf, main E w = Exit 1 wf
             ∧ fs wf = fs w
             ∧ fs wf !! "codigo.py" = Some (File orig)).
Proof.
  split.
  - intros codigo N k c e w Hlt Hc He.
    destruct (mejorar_codigo_spec E codigo N w) as (w' & Hrun & Hfs & Htrace & _).
    destruct (requests_from_until E N 0 codigo k c e Hlt Hc He) as [Hnone Hreqs].
    exists w'. unfold engine_fold in Hrun. fold (fold_from E 0 codigo N) in Hrun.
    rewrite Hnone in Hrun. split; [done|]. split; [done|].
    by rewrite Htrace, Hreqs, request_of_round_eq.
  - intros w orig Hload Hgate Heng.
    destruct (main_no_improvement E w orig Hload Hgate) as (wf & Hrun & Haft & _);
      [by rewrite Heng|].
    exists wf. split; [done|]. rewrite (after_fs _ _ _ _ Haft).
    split; [done|]. by apply (loads_lookup E).
Qed.

Lemma C4_aborts_in_the_demo :
  (∃ w', mejorar_codigo Demo.env_second_fails Demo.original 3 Demo.start = Done None w'
         ∧ length (trace w') = 2%nat)
  ∧ (∃ wf, main Demo.env_no_key Demo.start = Exit 1 wf
           ∧ fs wf !! "codigo.py" = Some (File Demo.original)).
Proof.
  split.
  - destruct (C4_failed_round_aborts Demo.env_second_fails) as [Hengine _].
    destruct (Hengine Demo.original 3%nat 1%nat Demo.impr_good "Rate limit reached" Demo.start)
      as (w' & Hrun & _ & Htrace).
    + lia.
    + vm_compute. reflexivity.
    + vm_compute. reflexivity.
    + exists w'. split; [exact Hrun|]. by rewrite Htrace.
  - destruct (C4_failed_round_aborts Demo.env_no_key) as [_ Hmain].
    destruct (Hmain Demo.start Demo.original) as (wf & Hrun & _ & Hcanon).
    + vm_compute. reflexivity.
    + vm_compute. reflexivity.
    + vm_compute. reflexivity.
    + exists wf. split; [exact Hrun|exact Hcanon].
Defined.

(** C5: when the original loads and fails its tests, the run ends with
    status 1 after exactly two calls, the read of the source file and the
    pytest run: the engine is not invoked, nothing is written, and the
    disk, the canonical file included, is as it was. *)
Theorem C5_failing_original_aborts E w orig :
  loads E (fs w) orig →
  test_gate E (fs w) = false →
  ∃ wf, main E w = Exit 1 wf
        ∧ trace wf = (trace w ++ [EvRead "codigo.py"; EvRun ["pytest"; "tests.py"]])%list
        ∧ fs wf = fs w
        ∧ fs wf !! "codigo.py" = Some (File orig).
Proof.
  intros Hload Hgate.
  destruct (main_gate_fails E w orig Hload Hgate) as (wf & Hrun & Hfs & Htrace & _).
  exists wf. split; [done|]. split; [done|]. split; [done|].
  rewrite Hfs. by apply (loads_lookup E).
Qed.

Lemma C5_aborts_in_the_demo :
  ∃ wf, main Demo.env_good {| fs := Demo.disk_failing; log := []; trace := [] |}
        = Exit 1 wf
        ∧ trace wf = [EvRead "codigo.py"; EvRun ["pytest"; "tests.py"]]
        ∧ fs wf = Demo.disk_failing
        ∧ fs wf !! "codigo.py" = Some (File Demo.impr_broken).
Proof.
  apply (C5_failing_original_aborts Demo.env_good
           {| fs := Demo.disk_failing; log := []; trace := [] |} Demo.impr_broken).
  - vm_compute. reflexivity.
  - vm_compute. reflexivity.
Defined.

(** C6, as the code has it: when the Test Gate fails after the swap, the
    restore of the original fails, and that is not fatal: the failure is
    logged as an error like any other failed write, the canonical file
    stays as the swap left it, and the run ends with status 0. *)
Theorem C6_restore_failure_is_not_fatal E w orig impr m3 :
  loads E (fs w) orig →
  test_gate E (fs w) = true →
  engine_fold E orig 3 = Some impr →
  impr ≠ "" →
  swapped E impr (fs w) = Ok m3 →
  test_gate E m3 = false →
  ∃ wf e, main E w = Done tt wf
          ∧ exit_status (main E w) = 0
          ∧ restore_error e ∈ log wf
          ∧ fs wf !! "codigo.py" = m3 !! "codigo.py".
Proof.
  intros Hload Hgate Heng Hne Hswap Hfail.
  pose proof (main_staged E w orig impr Hload Hgate Heng Hne) as H.
  rewrite Hswap in H.
  destruct H as (wf & Hrun & Hfs & _ & Hlog).
  destruct (Hlog Hfail) as [e He].
  exists wf, e. rewrite Hrun. split; [done|]. split; [done|]. split; [done|].
  rewrite Hfs, written_lookup_other; [done|done|].
  change (PosixPath.dir_chain _) with ["nuevas_funciones"].
  by intros ?%list_elem_of_singleton.
Qed.

Lemma C6_not_fatal_in_the_demo :
  ∃ wf e, main Demo.env_broken Demo.start = Done tt wf
          ∧ exit_status (main Demo.env_broken Demo.start) = 0
          ∧ restore_error e ∈ log wf
          ∧ fs wf !! "codigo.py"
            = (<["codigo.py" := File Demo.impr_broken]>
                 (<["temp" := Dir]> Demo.disk) : FS) !! "codigo.py".
Proof.
  eapply (C6_restore_failure_is_not_fatal Demo.env_broken Demo.start
            Demo.original Demo.impr_broken).
  - vm_compute. reflexivity.
  - vm_compute. reflexivity.
  - vm_compute. reflexivity.
  - discriminate.
  - vm_compute. reflexivity.
  - vm_compute. reflexivity.
Defined.

(** C6 as the spec words it does not hold: in the demo project with the
    engine that breaks the function, the Test Gate fails after the swap,
    the restore fails and is logged, and the exit status is 0, not 1. *)
Lemma C6_failed_restore_exits_with_0 :
  (∃ m3, stage_and_swap Demo.env_broken Demo.impr_broken (fs Demo.start) = Ok m3
         ∧ test_gate Demo.env_broken m3 = false)
  ∧ restore_error "[Errno 2] No such file or directory: ''"
      ∈ log (final_world (main Demo.env_broken Demo.start))
  ∧ exit_status (main Demo.env_broken Demo.start) = 0
  ∧ exit_status (main Demo.env_broken Demo.start) ≠ 1.
Proof.
  split; [eexists; split; vm_compute; reflexivity|].
  split; [refine (bool_decide_unpack _ _); vm_compute; exact I|].
  split; [vm_compute; reflexivity|]. vm_compute. discriminate.
Qed.

(** ** Linters *)

Lemma pytest_is_not_a_linter : ¬ is_linter ["pytest"; "tests.py"].
Proof. intros [ruta [[=]|[=]]]. Qed.

Section SameButLinters.

Variables E1 E2 : Env.
Hypothesis Hsame : same_but_linters E1 E2.

Lemma test_gate_same m : test_gate E1 m = test_gate E2 m.
Proof.
  unfold test_gate. destruct Hsame as (Hrun & _).
  by rewrite (Hrun _ m pytest_is_not_a_linter).
Qed.

Lemma guarded_same {A} op (x : Exc A) : guarded E1 op x = guarded E2 op x.
Proof. unfold guarded. destruct Hsame as (_ & _ & Hio & _). by rewrite Hio. Qed.

Lemma fold_step_same current i : fold_step E1 current i = fold_step E2 current i.
Proof.
  unfold fold_step, round_trip. destruct Hsame as (_ & Hcompl & _).
  destruct current; [|done]. by rewrite Hcompl.
Qed.

Lemma engine_fold_same codigo N : engine_fold E1 codigo N = engine_fold E2 codigo N.
Proof.
  unfold engine_fold. generalize (Some codigo) as current.
  induction (seq 0 N) as [|i l IH]; intros current; [done|].
  simpl. by rewrite fold_step_same, IH.
Qed.

Lemma written_same ruta contenido m :
  written E1 ruta contenido m = written E2 ruta contenido m.
Proof.
  unfold written. rewrite guarded_same.
  destruct (guarded E2 _ _) as [m1|]; [|done]. by rewrite guarded_same.
Qed.

Lemma outcome_same m : outcome E1 m = outcome E2 m.
Proof.
  unfold outcome. rewrite guarded_same.
  destruct (guarded E2 (OpRead _) _) as [orig|]; [|done].
  rewrite test_gate_same. destruct (test_gate E2 m); [|done].
  rewrite engine_fold_same. destruct (engine_fold E2 orig 3) as [impr|]; [|done].
  destruct (decide (impr = "")); [done|].
  unfold swapped. rewrite !written_same, guarded_same.
  destruct (guarded E2 (OpMove _ _) _) as [m3|]; [|done].
  by rewrite test_gate_same, !written_same.
Qed.

End SameButLinters.

(** C8: two runs from the same state in environments that differ only in
    what pylint and flake8 report end with the same exit status and the
    same disk, the canonical file included. *)
Theorem C8_linters_do_not_interfere E1 E2 w :
  same_but_linters E1 E2 →
  exit_status (main E1 w) = exit_status (main E2 w)
  ∧ fs (final_world (main E1 w)) = fs (final_world (main E2 w))
  ∧ fs (final_world (main E1 w)) !! "codigo.py"
    = fs (final_world (main E2 w)) !! "codigo.py".
Proof.
  intros Hsame.
  pose proof (main_outcome E1 w) as H1. pose proof (main_outcome E2 w) as H2.
  rewrite (outcome_same E1 E2 Hsame), <- H2 in H1.
  injection H1 as Hstatus Hfs. by rewrite Hstatus, Hfs.
Qed.

Lemma C8_clean_and_dirty_lint_in_the_demo :
  same_but_linters Demo.env_good (Demo.env (λ _, Ok ["  " +:+ Demo.impr_good +:+ nl]) 1)
  ∧ exit_status (main Demo.env_good Demo.start)
    = exit_status (main (Demo.env (λ _, Ok ["  " +:+ Demo.impr_good +:+ nl]) 1) Demo.start)
  ∧ fs (final_world (main Demo.env_good Demo.start))
    = fs (final_world (main (Demo.env (λ _, Ok ["  " +:+ Demo.impr_good +:+ nl]) 1) Demo.start))
  ∧ log (final_world (main Demo.env_good Demo.start))
    ≠ log (final_world (main (Demo.env (λ _, Ok ["  " +:+ Demo.impr_good +:+ nl]) 1) Demo.start)).
Proof.
  assert (Hsame : same_but_linters Demo.env_good
                    (Demo.env (λ _, Ok ["  " +:+ Demo.impr_good +:+ nl]) 1)).
  { repeat split. intros comando m Hlint. unfold Demo.env_good, Demo.env, Demo.run. simpl.
    destruct (decide (comando = _)); [done|].
    destruct (Demo.is_linter_b comando) eqn:Hb; [|done].
    destruct Hlint. unfold Demo.is_linter_b in Hb.
    destruct comando as [|c [|ruta [|]]]; try done.
    apply bool_decide_eq_true in Hb as [->| ->]; exists ruta; [by left|by right]. }
  destruct (C8_linters_do_not_interfere _ _ Demo.start Hsame) as (Hstatus & Hfs & _).
  split; [exact Hsame|]. split; [exact Hstatus|]. split; [exact Hfs|].
  intros Heq. apply (bool_decide_pack _) in Heq. vm_compute in Heq. exact Heq.
Defined.

(** ** The new-function file *)








(** C10: when the original loads and passes its tests and the engine
    returns the empty string, the driver takes the branch it takes for
    null: it logs that no improvement could be generated and ends with
    status 1 right after the three requests, the disk, the canonical file
    included, being as it was. *)
Theorem C10_empty_result_is_treated_as_null E w orig :
  loads E (fs w) orig →
  test_gate E (fs w) = true →
  engine_fold E orig 3 = Some "" →
  ∃ wf, main E w = Exit 1 wf
        ∧ exit_status (main E w) = 1
        ∧ last (log wf) = Some no_improvement
        ∧ trace wf = (trace w ++ [EvRead "codigo.py"; EvRun ["pytest"; "tests.py"]]
                        ++ map (request_of_round E orig) [0; 1; 2]%nat)%list
        ∧ fs wf = fs w
        ∧ fs wf !! "codigo.py" = Some (File orig).
Proof.
  intros Hload Hgate Heng.
  destruct (main_no_improvement E w orig Hload Hgate) as (wf & Hrun & Haft & Hlast);
    [by rewrite Heng|].
  destruct Haft as (Hfs & Htrace & _).
  exists wf. rewrite Hrun. split; [done|]. split; [done|]. split; [done|].
  split; [|split; [done|]].
  - rewrite Htrace. do 2 f_equal.
    by rewrite (requests_from_all E 3 0 orig "" Heng), request_of_round_eq.
  - rewrite Hfs. by apply (loads_lookup E).
Qed.

Lemma C10_blank_answer_in_the_demo :
  ∃ wf, main Demo.env_blank Demo.start = Exit 1 wf
        ∧ exit_status (main Demo.env_blank Demo.start) = 1
        ∧ last (log wf) = Some no_improvement
        ∧ trace wf = (trace Demo.start ++ [EvRead "codigo.py"; EvRun ["pytest"; "tests.py"]]
                        ++ map (request_of_round Demo.env_blank Demo.original) [0; 1; 2]%nat)%list
        ∧ fs wf = fs Demo.start
        ∧ fs wf !! "codigo.py" = Some (File Demo.original).
Proof.
  apply (C10_empty_result_is_treated_as_null Demo.env_blank Demo.start Demo.original).
  - vm_compute. reflexivity.
  - vm_compute. reflexivity.
  - vm_compute. reflexivity.
Defined.

(** * Further properties of the script *)

(** ** [crear_archivo] and [cargar_codigo] *)







Lemma dirname_without_separator ruta :
  PosixPath.has_sep ruta = false → PosixPath.dirname ruta = "".
Proof.
  intros Hsep. unfold PosixPath.dirname.
  assert (PosixPath.head_part ruta = "") as ->; [|done].
  destruct ruta as [|c r]; [done|]. cbn [PosixPath.head_part]. by rewrite Hsep.
Qed.

(** X2: a path without a directory part cannot be written:
    [os.path.dirname] gives the empty string, [os.makedirs('')] raises,
    and [crear_archivo] logs one error, writes nothing and returns. *)
Theorem crear_archivo_bare_path_writes_nothing E ruta contenido w :
  PosixPath.has_sep ruta = false →
  ∃ e w', crear_archivo E ruta contenido w = Done tt w'
          ∧ fs w' = fs w
          ∧ log w' = (log w ++ [{| level := ERROR;
                                  msg := Txt ("Error al crear el archivo " +:+ ruta
                                              +:+ ": " +:+ e) |}])%list
          ∧ trace w' = (trace w ++ [EvMakedirs ""])%list.
Proof.
  intros Hsep%dirname_without_separator.
  unfold crear_archivo, try_except, bind, os_makedirs, update_fs, guarded.
  rewrite Hsep.
  destruct (io_error E (OpMakedirs "")) as [e|]; simpl; by do 2 eexists.
Qed.

Lemma crear_archivo_bare_path_in_the_demo :
  ∃ e w', crear_archivo Demo.env_good "salida.txt" "hola" Demo.start = Done tt w'
          ∧ fs w' = fs Demo.start
          ∧ log w' = (log Demo.start
                      ++ [{| level := ERROR;
                             msg := Txt ("Error al crear el archivo " +:+ "salida.txt"
                                         +:+ ": " +:+ e) |}])%list
          ∧ trace w' = (trace Demo.start ++ [EvMakedirs ""])%list.
Proof.
  apply (crear_archivo_bare_path_writes_nothing Demo.env_good "salida.txt" "hola" Demo.start).
  reflexivity.
Defined.





(** ** Whole runs *)



(** The three ways a run can end, on the disk. *)
Lemma outcome_cases E (m : FS) :
  outcome E m = (1, m)
  ∨ (∃ impr, outcome E m = (1, written E "temp/codigo_mejorado.py" impr m))
  ∨ (∃ orig impr m3,
       loads E m orig ∧ test_gate E m = true ∧ engine_fold E orig 3 = Some impr
       ∧ impr ≠ "" ∧ swapped E impr m = Ok m3
       ∧ outcome E m = (0, written E "nuevas_funciones/resta.py" nuevo_codigo m3)).
Proof.
  unfold outcome, loads.
  destruct (guarded E (OpRead _) _) as [orig|] eqn:Hload; [|by left].
  destruct (test_gate E m) eqn:Hgate; [|by left].
  destruct (engine_fold E orig 3) as [impr|] eqn:Heng; [|by left].
  destruct (decide (impr = "")); [by left|].
  destruct (swapped E impr m) as [m3|] eqn:Hswap; [|right; left; by exists impr].
  right; right. exists orig, impr, m3. repeat (split; [done|]).
  destruct (test_gate E m3); [done|]. by rewrite written_bare_name.
Qed.

(** X4: a run never lets an exception escape: it either returns
    normally or ends through [exit(1)]. *)
Theorem main_returns_or_exits_1 E w :
  (∃ wf, main E w = Done tt wf) ∨ (∃ wf, main E w = Exit 1 wf).
Proof.
  destruct (guarded E (OpRead "codigo.py") (Os.read_text "codigo.py" (fs w)))
    as [orig|e] eqn:Hload.
  - destruct (test_gate E (fs w)) eqn:Hgate.
    + destruct (py_not (engine_fold E orig 3)) eqn:Hnot.
      * destruct (main_no_improvement E w orig Hload Hgate Hnot) as (wf & Hrun & _).
        right. by exists wf.
      * unfold py_not in Hnot.
        destruct (engine_fold E orig 3) as [impr|] eqn:Heng; [|done].
        destruct (decide (impr = "")) as [|Hne]; [done|].
        pose proof (main_staged E w orig impr Hload Hgate Heng Hne) as H.
        destruct (swapped E impr (fs w)).
        -- destruct H as (wf & Hrun & _). left. by exists wf.
        -- destruct H as (wf & Hrun & _). right. by exists wf.
    + destruct (main_gate_fails E w orig Hload Hgate) as (wf & Hrun & _).
      right. by exists wf.
  - destruct (main_load_fails E w e Hload) as (wf & Hrun & _). right. by exists wf.
Qed.

(** X5: the exit status is 0 exactly when the original loads and passes
    its tests, the engine gives a non-empty text and the move of the
    staged file goes through; it is 1 otherwise.  The outcome of the
    tests after the swap has no part in it. *)
Theorem exit_status_0_iff E w :
  (exit_status (main E w) = 0
   ↔ ∃ orig impr m3,
       loads E (fs w) orig ∧ test_gate E (fs w) = true
       ∧ engine_fold E orig 3 = Some impr ∧ impr ≠ ""
       ∧ swapped E impr (fs w) = Ok m3)
  ∧ (exit_status (main E w) = 0 ∨ exit_status (main E w) = 1).
Proof.
  pose proof (main_outcome E w) as Hout. split; [split|].
  - intros Hstatus. rewrite Hstatus in Hout.
    destruct (outcome_cases E (fs w)) as [H|[[impr H]|(orig & impr & m3 & H)]].
    + by rewrite H in Hout.
    + by rewrite H in Hout.
    + exists orig, impr, m3. by destruct H as (? & ? & ? & ? & ? & _).
  - intros (orig & impr & m3 & Hload & Hgate & Heng & Hne & Hswap).
    pose proof (main_staged E w orig impr Hload Hgate Heng Hne) as H.
    rewrite Hswap in H. by destruct H as (wf & -> & _).
  - destruct (outcome_cases E (fs w)) as [H|[[impr H]|(orig & impr & m3 & H)]].
    + rewrite H in Hout. right. by injection Hout.
    + rewrite H in Hout. right. by injection Hout.
    + destruct H as (_ & _ & _ & _ & _ & H). rewrite H in Hout. left. by injection Hout.
Qed.

(** X6: when the source file cannot be read, the run logs that one
    error and ends with status 1 at once: the read is the only call that
    leaves the process (no test run, no request, no write) and the disk
    is as it was. *)
Theorem unreadable_source_is_fatal E w e :
  guarded E (OpRead "codigo.py") (Os.read_text "codigo.py" (fs w)) = Raise e →
  main E w
  = Exit 1 {| fs := fs w;
              log := log w ++ [{| level := ERROR;
                                  msg := Txt ("Error al leer el archivo codigo.py: " +:+ e) |}];
              trace := trace w ++ [EvRead "codigo.py"] |}.
Proof.
  intros Hload. unfold main, bind, cargar_codigo, try_except, py_open_read, of_exc.
  by rewrite Hload.
Qed.

Lemma unreadable_source_in_the_demo :
  main Demo.env_good {| fs := ∅; log := []; trace := [] |}
  = Exit 1 {| fs := ∅;
              log := [] ++ [{| level := ERROR;
                               msg := Txt ("Error al leer el archivo codigo.py: "
                                           +:+ "[Errno 2] No such file or directory") |}];
              trace := [] ++ [EvRead "codigo.py"] |}.
Proof.
  apply (unreadable_source_is_fatal Demo.env_good {| fs := ∅; log := []; trace := [] |}).
  vm_compute. reflexivity.
Defined.







Lemma stage_and_swap_shape E (m : FS) orig impr m3 :
  loads E m orig →
  stage_and_swap E impr m = Ok m3 →
  m3 = <["codigo.py" := File impr]>
         (delete "temp/codigo_mejorado.py"
            (<["temp/codigo_mejorado.py" := File impr]> (<["temp" := Dir]> m))).
Proof.
  intros Hload%loads_lookup. unfold stage_and_swap, guarded.
  destruct (io_error E (OpMakedirs _)); [done|].
  unfold Os.makedirs. change (PosixPath.dir_chain "temp") with ["temp"].
  destruct (decide ("temp" = "")); [done|].
  destruct (existsb _ _); [done|]. cbn [foldr].
  destruct (io_error E (OpWrite _)); [done|].
  unfold Os.write_text.
  destruct (decide (_ = "")); [done|].
  destruct (Os.is_dir _ _); [done|]. destruct (Os.parent_ok _ _); [|done].
  destruct (io_error E (OpMove _ _)); [done|].
  unfold Os.move, Os.is_dir. rewrite lookup_insert_eq.
  rewrite !lookup_insert_ne, Hload by done.
  change (Os.parent_ok _ "codigo.py") with true. by intros [= <-].
Qed.

(** X10: when the improved text is staged and swapped in, the staging
    file is consumed by the move: at the end of the run it is gone, its
    directory [temp] is still there, and the canonical file holds the
    text. *)
Theorem staged_file_is_consumed E w orig impr m3 :
  loads E (fs w) orig →
  test_gate E (fs w) = true →
  engine_fold E orig 3 = Some impr →
  impr ≠ "" →
  stage_and_swap E impr (fs w) = Ok m3 →
  ∃ wf, main E w = Done tt wf
        ∧ fs wf !! "temp/codigo_mejorado.py" = None
        ∧ fs wf !! "temp" = Some Dir
        ∧ fs wf !! "codigo.py" = Some (File impr).
Proof.
  intros Hload Hgate Heng Hne Hswap.
  destruct (main_after_swap E w orig impr m3 Hload Hgate Heng Hne Hswap)
    as (wf & Hrun & Hfs & Hcanon & _).
  exists wf. split; [done|]. rewrite Hfs.
  rewrite (stage_and_swap_shape E _ _ _ _ Hload Hswap).
  assert (Hchain : ∀ p, p ≠ "nuevas_funciones" →
            p ∉ PosixPath.dir_chain (PosixPath.dirname "nuevas_funciones/resta.py")).
  { intros p Hp. change (PosixPath.dir_chain _) with ["nuevas_funciones"].
    by intros ?%list_elem_of_singleton. }
  split; [|split].
  - rewrite written_lookup_other by (done || by apply Hchain).
    by rewrite lookup_insert_ne, lookup_delete_eq.
  - rewrite written_lookup_other by (done || by apply Hchain).
    by rewrite lookup_insert_ne, lookup_delete_ne, lookup_insert_ne, lookup_insert_eq.
  - rewrite written_lookup_other by (done || by apply Hchain).
    by rewrite lookup_insert_eq.
Qed.

Lemma staged_file_is_consumed_in_the_demo :
  ∃ wf, main Demo.env_good Demo.start = Done tt wf
        ∧ fs wf !! "temp/codigo_mejorado.py" = None
        ∧ fs wf !! "temp" = Some Dir
        ∧ fs wf !! "codigo.py" = Some (File Demo.impr_good).
Proof.
  eapply (staged_file_is_consumed Demo.env_good Demo.start Demo.original Demo.impr_good).
  - vm_compute. reflexivity.
  - vm_compute. reflexivity.
  - vm_compute. reflexivity.
  - discriminate.
  - vm_compute. reflexivity.
Defined.

(** ** Commands, tests and linters *)

(** X11: [ejecutar_pruebas] always returns, and it answers [True]
    exactly when pytest could be launched and returned 0: a pytest that
    cannot be launched counts as failing tests.  Either way it logs one
    record, runs that one command and leaves the disk alone. *)
Theorem ejecutar_pruebas_verdict E w :
  ∃ v w', ejecutar_pruebas E w = Done v w'
          ∧ (v = true ↔ ∃ r, subprocess_run E ["pytest"; "tests.py"] (fs w) = Ok r
                              ∧ returncode r = 0)
          ∧ fs w' = fs w
          ∧ trace w' = (trace w ++ [EvRun ["pytest"; "tests.py"]])%list
          ∧ length (log w') = S (length (log w)).
Proof.
  unfold ejecutar_pruebas, ejecutar_comando, try_except, bind, py_subprocess_run, of_exc.
  destruct (subprocess_run E ["pytest"; "tests.py"] (fs w)) as [r|e]; simpl.
  - destruct (decide (returncode r = 0)) as [Hr|Hr]; do 2 eexists;
      (split; [reflexivity|]); simpl; rewrite length_app; simpl;
      (split; [|repeat split; lia]).
    + split; [by exists r|done].
    + split; [done|]. by intros (r' & [= <-] & ?).
  - do 2 eexists. split; [reflexivity|]. simpl. rewrite length_app. simpl.
    split; [|repeat split; lia]. split; [done|]. by intros (r' & ? & ?).
Qed.

(** X12: the linters are advisory: [analizar_codigo] and
    [verificar_estilo_codigo] always return, leave the disk alone, and
    log a warning exactly when the linter could be launched and returned
    a non-zero status. *)
Theorem linters_warn_iff_nonzero E ruta w :
  (∃ w' l, analizar_codigo E ruta w = Done tt w'
           ∧ fs w' = fs w
           ∧ log w' = (log w ++ l)%list
           ∧ ((∃ x, x ∈ l ∧ level x = WARNING)
              ↔ ∃ r, subprocess_run E ["pylint"; ruta] (fs w) = Ok r ∧ returncode r ≠ 0))
  ∧ (∃ w' l, verificar_estilo_codigo E ruta w = Done tt w'
             ∧ fs w' = fs w
             ∧ log w' = (log w ++ l)%list
             ∧ ((∃ x, x ∈ l ∧ level x = WARNING)
                ↔ ∃ r, subprocess_run E ["flake8"; ruta] (fs w) = Ok r ∧ returncode r ≠ 0)).
Proof.
  split.
  - unfold analizar_codigo, ejecutar_comando, try_except, bind, py_subprocess_run, of_exc.
    destruct (subprocess_run E ["pylint"; ruta] (fs w)) as [r|e]; simpl.
    + destruct (decide (returncode r ≠ 0)) as [Hr|Hr]; simpl.
      * do 2 eexists. split; [reflexivity|]. split; [done|]. simpl.
        split; [by rewrite <- app_assoc|]. split; [by exists r|].
        intros _. eexists. split; [apply elem_of_cons; right; by apply list_elem_of_singleton|done].
      * do 2 eexists. split; [reflexivity|]. split; [done|]. split; [done|]. split.
        -- by intros (x & ->%list_elem_of_singleton & ?).
        -- by intros (r' & [= <-] & ?).
    + do 2 eexists. split; [reflexivity|]. split; [done|]. split; [done|]. split.
      * by intros (x & ->%list_elem_of_singleton & ?).
      * by intros (r' & ? & ?).
  - unfold verificar_estilo_codigo, ejecutar_comando, try_except, bind,
      py_subprocess_run, of_exc.
    destruct (subprocess_run E ["flake8"; ruta] (fs w)) as [r|e]; simpl.
    + destruct (decide (returncode r ≠ 0)) as [Hr|Hr]; simpl.
      * do 2 eexists. split; [reflexivity|]. split; [done|]. simpl.
        split; [by rewrite <- app_assoc|]. split; [by exists r|].
        intros _. eexists. split; [apply elem_of_cons; right; by apply list_elem_of_singleton|done].
      * do 2 eexists. split; [reflexivity|]. split; [done|]. split; [done|]. split.
        -- by intros (x & ->%list_elem_of_singleton & ?).
        -- by intros (r' & [= <-] & ?).
    + do 2 eexists. split; [reflexivity|]. split; [done|]. split; [done|]. split.
      * by intros (x & ->%list_elem_of_singleton & ?).
      * by intros (r' & ? & ?).
Qed.

(** ** The project walker *)

Lemma world_eta w : {| fs := fs w; log := log w; trace := trace w |} = w.
Proof. by destruct w. Qed.

Lemma for_each_log_exact {A} (l : list A) (f : A → Msg) w :
  for_each l (λ x, logging_info (f x)) w
  = Done tt {| fs := fs w;
               log := log w ++ map (λ x, {| level := INFO; msg := f x |}) l;
               trace := trace w |}.
Proof.
  revert w. induction l as [|x l IH]; intros w.
  - simpl. by rewrite app_nil_r, world_eta.
  - cbn [for_each]. unfold bind at 1. cbn [logging_info]. rewrite IH.
    simpl. by rewrite <- app_assoc.
Qed.

(** X13: [listar_archivos] always returns and leaves the disk alone; it
    logs one line per entry that [os.walk] yields, directory by
    directory, the files of a directory before its subdirectories, each
    joined to its root, and one error at the end when the walk fails. *)
Theorem listar_archivos_log E directorio w :
  ∃ w', listar_archivos E directorio w = Done tt w'
        ∧ fs w' = fs w
        ∧ trace w' = (trace w ++ [EvWalk directorio])%list
        ∧ log w'
          = (log w
             ++ map (λ p, {| level := INFO; msg := Txt p |})
                  (flat_map (λ '(root, dirs, files),
                               map (PosixPath.join root) files
                               ++ map (PosixPath.join root) dirs)
                            (os_walk E directorio (fs w)).1)
             ++ match (os_walk E directorio (fs w)).2 with
                | Some e =>
                    [{| level := ERROR;
                        msg := Txt ("Error al listar archivos en el directorio "
                                    +:+ directorio +:+ ": " +:+ e) |}]
                | None => []
                end)%list.
Proof.
  unfold listar_archivos, try_except, py_os_walk. unfold bind at 1.
  destruct (os_walk E directorio (fs w)) as [entradas fallo]. cbn [fst snd].
  assert (Hbody : ∀ w0,
    for_each entradas (λ '(root, dirs, files),
       bind (for_each files (λ name, logging_info (Txt (PosixPath.join root name))))
            (λ _, for_each dirs (λ name, logging_info (Txt (PosixPath.join root name))))) w0
    = Done tt {| fs := fs w0;
                 log := (log w0
                         ++ map (λ p, {| level := INFO; msg := Txt p |})
                              (flat_map (λ '(root, dirs, files),
                                           map (PosixPath.join root) files
                                           ++ map (PosixPath.join root) dirs) entradas))%list;
                 trace := trace w0 |}).
  { induction entradas as [|[[root dirs] files] entradas IH]; intros w0.
    - simpl. by rewrite app_nil_r, world_eta.
    - cbn [for_each flat_map]. unfold bind at 1. unfold bind at 1.
      rewrite (for_each_log_exact files (λ name, Txt (PosixPath.join root name))).
      rewrite (for_each_log_exact dirs (λ name, Txt (PosixPath.join root name))).
      rewrite IH. simpl. do 2 f_equal.
      by rewrite !map_app, !map_map, <- !app_assoc. }
  unfold bind at 1. rewrite Hbody. simpl.
  destruct fallo as [e|]; simpl; eexists; (split; [reflexivity|]); simpl.
  - by rewrite <- app_assoc.
  - by rewrite app_nil_r.
Qed.

(** ** More on the engine *)

(** X14: a reply without candidates is a failed round-trip: indexing the
    empty list raises, the engine logs the error and returns null after
    that single request. *)
Theorem reply_without_candidates_aborts E codigo N w :
  (0 < N)%nat →
  completion_create E 0 (completion_request codigo) = Ok [] →
  ∃ w', mejorar_codigo E codigo N w = Done None w'
        ∧ fs w' = fs w
        ∧ log w' = (log w ++ [{| level := ERROR;
                                 msg := Txt ("Error al generar mejoras en el código: "
                                             +:+ "list index out of range") |}])%list
        ∧ trace w' = (trace w ++ [EvRequest 0 (completion_request codigo)])%list.
Proof.
  intros HN Hreply. destruct N as [|N]; [lia|].
  unfold mejorar_codigo. cbn [mejorar_bucle].
  unfold bind, mejorar_paso, try_except, bind, openai_Completion_create, of_exc.
  rewrite Hreply. simpl. by eexists.
Qed.

Lemma reply_without_candidates_in_the_demo :
  ∃ w', mejorar_codigo (Demo.env (λ _, Ok []) 0) Demo.original 3 Demo.start = Done None w'
        ∧ fs w' = fs Demo.start
        ∧ log w' = (log Demo.start
                    ++ [{| level := ERROR;
                           msg := Txt ("Error al generar mejoras en el código: "
                                       +:+ "list index out of range") |}])%list
        ∧ trace w' = (trace Demo.start
                      ++ [EvRequest 0 (completion_request Demo.original)])%list.
Proof.
  apply (reply_without_candidates_aborts (Demo.env (λ _, Ok []) 0) Demo.original 3 Demo.start).
  - lia.
  - reflexivity.
Defined.

Lemma requests_from_bound E k : ∀ i codigo,
  (length (requests_from E i k codigo) ≤ k)%nat
  ∧ ((0 < k)%nat → (0 < length (requests_from E i k codigo))%nat)
  ∧ Forall (λ ev, ∃ j req, ev = EvRequest j req) (requests_from E i k codigo).
Proof.
  induction k as [|k IH]; intros i codigo.
  - simpl. repeat split; [lia|lia|constructor].
  - cbn [requests_from]. destruct (round_trip E i codigo) as [sugerencia|e].
    + destruct (IH (S i) sugerencia) as (Hle & _ & Hall).
      repeat split; simpl; [lia|lia|]. constructor; [by do 2 eexists|done].
    + repeat split; simpl; [lia|lia|]. constructor; [by do 2 eexists|constructor].
Qed.

(** X15: whatever the service answers, the engine returns, leaves the
    disk alone, and the only calls it makes are completion requests: at
    least one when [iteraciones] is positive, never more than
    [iteraciones]. *)
Theorem mejorar_codigo_request_bound E codigo N w :
  ∃ r w' t, mejorar_codigo E codigo N w = Done r w'
            ∧ fs w' = fs w
            ∧ trace w' = (trace w ++ t)%list
            ∧ (length t ≤ N)%nat
            ∧ ((0 < N)%nat → (0 < length t)%nat)
            ∧ Forall (λ ev, ∃ j req, ev = EvRequest j req) t.
Proof.
  destruct (mejorar_codigo_spec E codigo N w) as (w' & Hrun & Hfs & Htrace & _).
  destruct (requests_from_bound E N 0 codigo) as (Hle & Hpos & Hall).
  by exists (engine_fold E codigo N), w', (requests_from E 0 N codigo).
Qed.

(** ** Stripped text *)

Module StripFacts.
Import PyStr.

Lemma ws_len_positive s n :
  ws_len s = S n →
  ∃ enc, enc ∈ whitespace ∧ starts_with enc s = true ∧ length enc = S n.
Proof.
  unfold ws_len. destruct (List.find _ whitespace) as [enc|] eqn:Hfind; [|done].
  apply List.find_some in Hfind as [Hin Hstarts]. intros Hlen.
  exists enc. by rewrite list_elem_of_In.
Qed.

Lemma starts_with_length enc s :
  starts_with enc s = true → (length enc ≤ String.length s)%nat.
Proof.
  revert s. induction enc as [|b enc IH]; intros s; [simpl; lia|].
  destruct s as [|c s]; [done|]. simpl. intros [_ H]%andb_true_iff.
  apply IH in H. lia.
Qed.

Lemma starts_with_app enc s t :
  starts_with enc s = true → starts_with enc (s +:+ t) = true.
Proof.
  revert s. induction enc as [|b enc IH]; intros s; [done|].
  destruct s as [|c s]; [done|]. rewrite DiffFacts.append_cons. simpl.
  intros [-> H]%andb_true_iff. by rewrite IH.
Qed.

(** An encoding that fits [s +:+ t] but not [s], next to one that fits
    [s], is a proper extension of it. *)
Lemma starts_with_longer enc e s t :
  starts_with enc s = true →
  starts_with e (s +:+ t) = true →
  starts_with e s = false →
  enc `prefix_of` e ∧ enc ≠ e.
Proof.
  revert e s. induction enc as [|b enc IH]; intros e s Henc He Hnot.
  - split; [apply prefix_nil|]. by intros <-.
  - destruct s as [|c s]; [done|]. destruct e as [|b' e]; [done|].
    rewrite DiffFacts.append_cons in He. simpl in *.
    apply andb_true_iff in Henc as [Hb Henc]. apply andb_true_iff in He as [Hb' He].
    rewrite Hb' in Hnot. simpl in Hnot.
    apply N.eqb_eq in Hb, Hb'. subst b b'.
    destruct (IH e s Henc He Hnot) as [Hpre Hne].
    split; [by apply prefix_cons|]. by intros [= ->].
Qed.

(** No whitespace encoding is the beginning of another one, and none is
    empty. *)
Lemma whitespace_prefix_free :
  Forall (λ e, Forall (λ enc, enc `prefix_of` e → enc = e) whitespace) whitespace.
Proof. refine (bool_decide_unpack _ _). vm_compute. exact I. Qed.

Lemma ws_len_app s t n : ws_len s = S n → ws_len (s +:+ t) = S n.
Proof.
  unfold ws_len.
  destruct (List.find _ whitespace) as [enc|] eqn:Hfind; [|done]. intros Hlen.
  assert (Hsame : List.find (λ e, starts_with e (s +:+ t)) whitespace = Some enc);
    [|by rewrite Hsame].
  pose proof whitespace_prefix_free as Hfree.
  assert (Hin : Forall (λ e, e ∈ whitespace) whitespace)
    by (apply Forall_forall; auto).
  revert Hfind Hin. generalize whitespace at 1 3 4 as l.
  induction l as [|e l IH]; [done|]. intros Hfind Hin. simpl in *.
  apply Forall_cons in Hin as [He Hl].
  destruct (starts_with e s) eqn:Hes.
  - injection Hfind as ->. by rewrite starts_with_app.
  - destruct (starts_with e (s +:+ t)) eqn:Hest; [|by apply IH].
    apply List.find_some in Hfind as [Hencin Hencs].
    destruct (starts_with_longer enc e s t Hencs Hest Hes) as [Hpre Hne].
    rewrite Forall_forall in Hfree. specialize (Hfree e He).
    rewrite Forall_forall in Hfree. destruct Hne. apply Hfree; [|done].
    rewrite Forall_forall in Hl. apply Hl. by apply list_elem_of_In.
Qed.

Lemma lstrip_clean u : ws_len u = O → lstrip u = u.
Proof. intros H. destruct u as [|c r]; [done|]. unfold lstrip. simpl. by rewrite H. Qed.

Lemma ws_len_lstrip_aux s : ∀ skip, ws_len (lstrip_aux skip s) = O.
Proof.
  induction s as [|c r IH]; intros skip; [done|]. cbn [lstrip_aux].
  destruct skip as [|k]; [|apply IH].
  destruct (ws_len (String c r)) eqn:Hlen; [done|apply IH].
Qed.

Lemma lstrip_aux_app a : ∀ skip b,
  (skip ≤ String.length a)%nat →
  lstrip_aux skip a = "" →
  lstrip_aux skip (a +:+ b) = lstrip b.
Proof.
  induction a as [|c r IH]; intros skip b Hskip Hempty.
  - simpl in Hskip. by replace skip with O by lia.
  - rewrite DiffFacts.append_cons. cbn [lstrip_aux] in *. simpl in Hskip.
    destruct skip as [|k]; [|apply IH; [lia|done]].
    rewrite <- DiffFacts.append_cons.
    destruct (ws_len (String c r)) as [|k] eqn:Hlen; [done|].
    rewrite (ws_len_app _ b _ Hlen). apply IH; [|done].
    destruct (ws_len_positive _ _ Hlen) as (enc & _ & Hstarts & Hk).
    apply starts_with_length in Hstarts. simpl in Hstarts. lia.
Qed.

Lemma rstrip_split t : ∃ tail, t = rstrip t +:+ tail ∧ lstrip tail = "".
Proof.
  induction t as [|c r (tail & Hr & Htail)]; [by exists ""|]. cbn [rstrip].
  unfold all_space. destruct (decide (lstrip (String c r) = "")) as [Hall|_].
  - by exists (String c r).
  - exists tail. rewrite DiffFacts.append_cons. by rewrite <- Hr.
Qed.

Lemma ws_len_rstrip t : ws_len t = O → ws_len (rstrip t) = O.
Proof.
  intros Ht. destruct (rstrip_split t) as (tail & Hsplit & _).
  destruct (ws_len (rstrip t)) as [|n] eqn:Hlen; [done|].
  rewrite Hsplit, (ws_len_app _ tail _ Hlen) in Ht. done.
Qed.

Lemma rstrip_idempotent t : rstrip (rstrip t) = rstrip t.
Proof.
  induction t as [|c r IH]; [done|]. cbn [rstrip].
  destruct (all_space (String c r)) eqn:Hspace; [done|].
  assert (Hnot : lstrip (String c r) ≠ "").
  { unfold all_space in Hspace. by destruct (decide (lstrip (String c r) = "")). }
  cbn [rstrip]. rewrite IH.
  unfold all_space. destruct (decide (lstrip (String c (rstrip r)) = "")) as [Hall|]; [|done].
  destruct Hnot. destruct (rstrip_split r) as (tail & Hr & Htail).
  rewrite Hr, <- DiffFacts.append_cons. unfold lstrip.
  rewrite lstrip_aux_app; [done|lia|done].
Qed.

(** Stripping a stripped text changes nothing. *)
Lemma strip_idempotent s : strip (strip s) = strip s.
Proof.
  unfold strip.
  rewrite (lstrip_clean (rstrip (lstrip s))).
  - apply rstrip_idempotent.
  - apply ws_len_rstrip, ws_len_lstrip_aux.
Qed.

End StripFacts.

Lemma fold_step_stripped E current i r :
  fold_step E current i = Some r → PyStr.strip r = r.
Proof.
  unfold fold_step, round_trip. destruct current as [codigo|]; [|done].
  destruct (completion_create E i _) as [[|c l]|e]; [done| |done].
  intros [= <-]. apply StripFacts.strip_idempotent.
Qed.

Lemma engine_fold_stripped E codigo N r :
  (0 < N)%nat → engine_fold E codigo N = Some r → PyStr.strip r = r.
Proof.
  intros HN. destruct N as [|N]; [lia|]. unfold engine_fold.
  rewrite seq_S, foldl_app. simpl. apply fold_step_stripped.
Qed.

(** X16: with at least one iteration, a text the engine returns is
    stripped: it neither begins nor ends with whitespace, so stripping it
    again gives the same text. *)
Theorem mejorar_codigo_result_is_stripped E codigo N w r w' :
  (0 < N)%nat →
  mejorar_codigo E codigo N w = Done (Some r) w' →
  PyStr.strip r = r.
Proof.
  intros HN Hrun.
  destruct (mejorar_codigo_spec E codigo N w) as (w1 & Hspec & _).
  rewrite Hspec in Hrun. injection Hrun as Hr _.
  by apply (engine_fold_stripped E codigo N).
Qed.

Lemma mejorar_codigo_strips_in_the_demo : PyStr.strip Demo.impr_good = Demo.impr_good.
Proof.
  apply (mejorar_codigo_result_is_stripped Demo.env_good Demo.original 3 Demo.start
           Demo.impr_good
           (final_world (mejorar_codigo Demo.env_good Demo.original 3 Demo.start))).
  - lia.
  - vm_compute. reflexivity.
Defined.

(** X17: the text a run keeps in the source file is the stripped answer
    of the last round: when the improved text is staged and swapped in,
    the canonical file ends the run holding a text that is not empty and
    neither begins nor ends with whitespace, a final newline included. *)
Theorem kept_text_is_stripped E w orig impr m3 :
  loads E (fs w) orig →
  test_gate E (fs w) = true →
  engine_fold E orig 3 = Some impr →
  impr ≠ "" →
  stage_and_swap E impr (fs w) = Ok m3 →
  ∃ wf, main E w = Done tt wf
        ∧ fs wf !! "codigo.py" = Some (File impr)
        ∧ PyStr.strip impr = impr
        ∧ impr ≠ "".
Proof.
  intros Hload Hgate Heng Hne Hswap.
  destruct (main_after_swap E w orig impr m3 Hload Hgate Heng Hne Hswap)
    as (wf & Hrun & _ & Hcanon & _).
  exists wf. split; [done|]. split; [done|]. split; [|done].
  apply (engine_fold_stripped E orig 3); [lia|done].
Qed.

Lemma kept_text_is_stripped_in_the_demo :
  ∃ wf, main Demo.env_good Demo.start = Done tt wf
        ∧ fs wf !! "codigo.py" = Some (File Demo.impr_good)
        ∧ PyStr.strip Demo.impr_good = Demo.impr_good
        ∧ Demo.impr_good ≠ "".
Proof.
  eapply (kept_text_is_stripped Demo.env_good Demo.start Demo.original Demo.impr_good).
  - vm_compute. reflexivity.
  - vm_compute. reflexivity.
  - vm_compute. reflexivity.
  - discriminate.
  - vm_compute. reflexivity.
Defined.
